(** * rang.py: a two-pane terminal file browser

    A shallow embedding of [src/rang.py] (class [App]) and the properties
    of its navigation and render loop.

    The program is written against three libraries: [curses] (the
    terminal), [pathlib] (path values) and [os] (the file system).  They
    are modelled here as far as the program uses them:

    - a string is a list of characters, each standing for one code point
      (the 256 that [ascii] has); a [bytes] object is a list of bytes, for
      which the same type serves;
    - a path is the list of its components below the root [/] (POSIX
      flavour of [pathlib]; every path of the program is absolute);
    - the file system is a tree of regular files and directories, a
      directory keeping its entries in enumeration order and a regular
      file holding text (the characters its contents decode to); symbolic
      links, permissions, devices and files that are not text are not part
      of the model, and the [os] calls follow their POSIX behaviour on
      such a tree;
    - the terminal is a log of the drawing calls, a geometry and the lines
      the user types at a prompt, which the terminal sends encoded in
      UTF-8; drawing calls do not fail in the model ([curses.error] is
      outside it, so what is proved of the drawing is about the calls it
      makes, not about their success);
    - Python exceptions are values of [exn]; a method of [App] is a
      function from the object's fields and the world to a result and the
      new fields and world, so that what was done before an exception was
      raised stays done. *)

From Stdlib Require Import ZArith List String Ascii Bool Lia.
From Stdlib Require Import Permutation Sorted.
Import ListNotations.

Set Warnings "-register-all".

Local Open Scope string_scope.
Local Open Scope list_scope.
Local Open Scope Z_scope.

(** ** Python values *)

(** The exceptions the modelled calls raise.  All of them derive from
    [Exception]; [UnicodeDecodeError] is what [bytes.decode] raises, and
    all but it and [IndexError] are the [OSError]s that the [os] calls
    raise on a tree of files and directories. *)
Inductive exn : Type :=
| IndexError
| UnicodeDecodeError
| FileNotFoundError
| NotADirectoryError
| IsADirectoryError
| FileExistsError
| OSError_ENOTEMPTY
| OSError_EINVAL.

Inductive result (A : Type) : Type :=
| Ok (a : A)
| Raise (e : exn).
Arguments Ok {A} a.
Arguments Raise {A} e.

Definition len {A : Type} (l : list A) : Z := Z.of_nat (List.length l).

Definition str_len (s : string) : Z := Z.of_nat (String.length s).

(** [l[i]]: an index below zero counts from the end of the list. *)
Definition py_index {A : Type} (l : list A) (i : Z) : result A :=
  let j := if i <? 0 then i + len l else i in
  if (0 <=? j) && (j <? len l) then
    match nth_error l (Z.to_nat j) with
    | Some x => Ok x
    | None => Raise IndexError
    end
  else Raise IndexError.

(** The bounds of the slice [s[:stop]]: a stop below zero counts from the
    end of the string, and the result is cut to the string. *)
Definition slice_stop (stop : Z) (s : string) : Z :=
  let j := if stop <? 0 then stop + str_len s else stop in
  Z.min (Z.max 0 j) (str_len s).

(** [s[:stop]] *)
Definition py_slice_to (stop : Z) (s : string) : string :=
  substring 0 (Z.to_nat (slice_stop stop s)) s.

(** [key in keys] *)
Definition py_in (key : Z) (keys : list Z) : bool :=
  existsb (Z.eqb key) keys.

Definition ord (c : ascii) : Z := Z.of_nat (nat_of_ascii c).

Definition TAB : ascii := ascii_of_nat 9.
Definition NL : ascii := ascii_of_nat 10.
Definition CR : ascii := ascii_of_nat 13.

(** [s.replace("\t", "    ")] *)
Fixpoint replace_tabs (s : string) : string :=
  match s with
  | EmptyString => EmptyString
  | String c r =>
      if Ascii.eqb c TAB then String.append "    " (replace_tabs r)
      else String c (replace_tabs r)
  end.

(** [s.split(sep)] for a separator of one character: never empty. *)
Fixpoint str_split (sep : ascii) (s : string) : list string :=
  match s with
  | EmptyString => [EmptyString]
  | String c r =>
      if Ascii.eqb c sep then EmptyString :: str_split sep r
      else match str_split sep r with
           | [] => [String c EmptyString]
           | w :: ws => String c w :: ws
           end
  end.

(** [sep.join(l)] *)
Fixpoint str_join (sep : string) (l : list string) : string :=
  match l with
  | [] => EmptyString
  | [x] => x
  | x :: r => String.append x (String.append sep (str_join sep r))
  end.

(** [s.encode("utf-8")] for the characters of the model: one byte below
    U+0080, the two bytes [110000xx 10xxxxxx] from there to U+00FF. *)
Definition utf8_encode_char (c : ascii) : string :=
  let n := N_of_ascii c in
  if (n <? 128)%N then String c EmptyString
  else String (ascii_of_N (192 + n / 64))
              (String (ascii_of_N (128 + n mod 64)) EmptyString).

Fixpoint utf8_encode (s : string) : string :=
  match s with
  | EmptyString => EmptyString
  | String c r => String.append (utf8_encode_char c) (utf8_encode r)
  end.

(** [b.decode("utf-8")] on the bytes that encode characters of the model:
    a byte below 0x80 is its character, the lead bytes 0xC2 and 0xC3 take
    one continuation byte (0x80 to 0xBF); a lead byte without its
    continuation byte, a continuation byte on its own and the bytes 0xC0
    and 0xC1 raise.  (The lead bytes from 0xC4 on belong to characters
    beyond U+00FF; they never arrive, see [getstr].) *)
Fixpoint utf8_decode (b : string) : result string :=
  match b with
  | EmptyString => Ok EmptyString
  | String c r =>
      let n := N_of_ascii c in
      if (n <? 128)%N then
        match utf8_decode r with
        | Ok s => Ok (String c s)
        | Raise e => Raise e
        end
      else if (n =? 194)%N || (n =? 195)%N then
        match r with
        | String d r' =>
            let m := N_of_ascii d in
            if (128 <=? m)%N && (m <? 192)%N then
              match utf8_decode r' with
              | Ok s => Ok (String (ascii_of_N ((n - 192) * 64 + (m - 128))) s)
              | Raise e => Raise e
              end
            else Raise UnicodeDecodeError
        | EmptyString => Raise UnicodeDecodeError
        end
      else Raise UnicodeDecodeError
  end.

(** The bytes of a C string: those before the first NUL byte. *)
Fixpoint until_nul (b : string) : string :=
  match b with
  | EmptyString => EmptyString
  | String c r =>
      if Ascii.eqb c zero then EmptyString else String c (until_nul r)
  end.

(** What [read] makes of the line ends of a file opened in text mode:
    a carriage return, alone or before a line feed, is read as a line
    feed. *)
Fixpoint universal_newlines (s : string) : string :=
  match s with
  | EmptyString => EmptyString
  | String c r =>
      if Ascii.eqb c CR then
        match r with
        | String d r' =>
            if Ascii.eqb d NL then String NL (universal_newlines r')
            else String NL (universal_newlines r)
        | EmptyString => String NL EmptyString
        end
      else String c (universal_newlines r)
  end.

(** [l.sort()] on strings.  Python's sort is stable and compares strings
    by code point; [String.leb] compares them character by character.
    Insertion after the elements that are not greater keeps equal elements
    in order; on a total order every sort returns the same list (see
    [py_sort_unique]). *)
Fixpoint sort_insert (x : string) (l : list string) : list string :=
  match l with
  | [] => [x]
  | y :: r => if String.ltb x y then x :: l else y :: sort_insert x r
  end.

Definition py_sort (l : list string) : list string :=
  fold_left (fun acc x => sort_insert x acc) l [].

(** ** pathlib *)

(** An absolute path: its components below the root. *)
Definition Path : Type := list string.

(** [p.parent]: the parent of the root is the root. *)
Definition parent (p : Path) : Path := removelast p.

(** [p.name]: the last component, empty for the root. *)
Definition name (p : Path) : string := last p EmptyString.

(** The components of a path segment: empty components and [.] are
    dropped when a path is built, [..] is kept. *)
Definition parse_parts (s : string) : list string :=
  filter (fun c => negb (String.eqb c EmptyString || String.eqb c "."))
         (str_split "/" s).

Definition is_absolute (s : string) : bool :=
  match s with
  | String c _ => Ascii.eqb c "/"
  | EmptyString => false
  end.

(** [p / s] for a string [s]: an absolute segment replaces [p] (every
    absolute segment is read from the one root [/]). *)
Definition joinpath (p : Path) (s : string) : Path :=
  if is_absolute s then parse_parts s else p ++ parse_parts s.

(** [p / q] for a path [q]: every path here is absolute, so [q] wins. *)
Definition joinpath_abs (p q : Path) : Path := q.

(** [str(p)] *)
Definition str_path (p : Path) : string :=
  String.append "/" (str_join "/" p).

(** ** The file system *)

(** A regular file with its text (its contents decoded, line ends as
    they are stored), or a directory with its entries. *)
Inductive node : Type :=
| File (text : string)
| Dir (entries : list (string * node)).

Fixpoint find_child (nm : string) (ch : list (string * node)) : option node :=
  match ch with
  | [] => None
  | (k, c) :: r => if String.eqb k nm then Some c else find_child nm r
  end.

(** The node at a path without [..]. *)
Fixpoint lookup (p : Path) (n : node) : option node :=
  match p with
  | [] => Some n
  | c :: p' =>
      match n with
      | Dir ch =>
          match find_child c ch with
          | Some sub => lookup p' sub
          | None => None
          end
      | File _ => None
      end
  end.

(** Path resolution: walk the components from [acc]; each step needs the
    place reached so far to be a directory, and [..] steps to its parent
    (the root's parent is the root).  The last component need not exist. *)
Fixpoint canon (root : node) (acc : Path) (p : Path) : result Path :=
  match p with
  | [] => Ok acc
  | c :: p' =>
      match lookup acc root with
      | Some (Dir _) =>
          if String.eqb c ".." then canon root (removelast acc) p'
          else canon root (acc ++ [c]) p'
      | Some (File _) => Raise NotADirectoryError
      | None => Raise FileNotFoundError
      end
  end.

(** The resolved path and the node it names. *)
Definition os_stat (root : node) (p : Path) : result (Path * node) :=
  match canon root [] p with
  | Ok cp =>
      match lookup cp root with
      | Some n => Ok (cp, n)
      | None => Raise FileNotFoundError
      end
  | Raise e => Raise e
  end.

(** [p.is_dir()]: false when the path does not resolve. *)
Definition is_dir (root : node) (p : Path) : bool :=
  match os_stat root p with
  | Ok (_, Dir _) => true
  | _ => false
  end.

(** [os.listdir(p)] *)
Definition os_listdir (root : node) (p : Path) : result (list string) :=
  match os_stat root p with
  | Ok (_, Dir ch) => Ok (map fst ch)
  | Ok (_, File _) => Raise NotADirectoryError
  | Raise e => Raise e
  end.

(** [p.iterdir()]: the children as paths. *)
Definition iterdir (root : node) (p : Path) : result (list Path) :=
  match os_listdir root p with
  | Ok names => Ok (map (fun nm => p ++ [nm]) names)
  | Raise e => Raise e
  end.

(** [open(p, "r").read()]: the text of a file, read in text mode. *)
Definition read_text (root : node) (p : Path) : result string :=
  match os_stat root p with
  | Ok (_, File t) => Ok (universal_newlines t)
  | Ok (_, Dir _) => Raise IsADirectoryError
  | Raise e => Raise e
  end.

(** Set, replace or remove ([None]) the entry [nm] of a directory. *)
Fixpoint set_child (nm : string) (v : option node)
         (ch : list (string * node)) : list (string * node) :=
  match ch with
  | [] => match v with Some n => [(nm, n)] | None => [] end
  | (k, c) :: r =>
      if String.eqb k nm
      then match v with Some n => (k, n) :: r | None => r end
      else (k, c) :: set_child nm v r
  end.

(** The tree with the entry at a resolved path set, replaced or removed;
    the root itself stays. *)
Fixpoint set_at (p : Path) (v : option node) (root : node) : node :=
  match p with
  | [] => root
  | c :: p' =>
      match root with
      | Dir ch =>
          match p' with
          | [] => Dir (set_child c v ch)
          | _ :: _ =>
              match find_child c ch with
              | Some sub => Dir (set_child c (Some (set_at p' v sub)) ch)
              | None => root
              end
          end
      | File _ => root
      end
  end.

(** [os.remove(p)]: unlinks a file, refuses a directory. *)
Definition os_remove (root : node) (p : Path) : result node :=
  match os_stat root p with
  | Ok (cp, File _) => Ok (set_at cp None root)
  | Ok (_, Dir _) => Raise IsADirectoryError
  | Raise e => Raise e
  end.

(** [os.mkdir(p)] *)
Definition os_mkdir (root : node) (p : Path) : result node :=
  match canon root [] p with
  | Ok cp =>
      match lookup cp root with
      | Some _ => Raise FileExistsError
      | None => Ok (set_at cp (Some (Dir [])) root)
      end
  | Raise e => Raise e
  end.

Fixpoint is_prefix (p q : Path) : bool :=
  match p, q with
  | [], _ => true
  | _ :: _, [] => false
  | a :: p', b :: q' => String.eqb a b && is_prefix p' q'
  end.

Definition path_eqb (p q : Path) : bool := is_prefix p q && is_prefix q p.

(** [os.rename(src, dst)]: a file replaces a file, a directory replaces an
    empty directory; a directory does not move below itself. *)
Definition os_rename (root : node) (src dst : Path) : result node :=
  match os_stat root src with
  | Raise e => Raise e
  | Ok (csrc, moved) =>
      match canon root [] dst with
      | Raise e => Raise e
      | Ok cdst =>
          if path_eqb csrc cdst then Ok root
          else if is_prefix csrc cdst then Raise OSError_EINVAL
          else
            let move := Ok (set_at cdst (Some moved) (set_at csrc None root)) in
            match lookup cdst root, moved with
            | None, _ => move
            | Some (File _), File _ => move
            | Some (File _), Dir _ => Raise NotADirectoryError
            | Some (Dir _), File _ => Raise IsADirectoryError
            | Some (Dir []), Dir _ => move
            | Some (Dir (_ :: _)), Dir _ => Raise OSError_ENOTEMPTY
            end
      end
  end.

(** ** The terminal *)

(** The calls made on the curses screen, in the order they are made. *)
Inductive call : Type :=
| CursSet (visibility : Z)
| StartColor
| InitPair (pair fg bg : Z)
| Clear
| VLine (y x : Z) (ch : ascii) (n : Z)
| HLine (y x : Z) (ch : ascii) (n : Z)
| AddStr (y x : Z) (text : string)
| AttrSet (pair : Z) (bold : bool)
| Echo
| NoEcho
| GetStr (y x n : Z).

(** Key codes of [curses.h].  [KEY_A2], [KEY_B1], [KEY_B3] and [KEY_C2]
    are the middle keys of the keypad, which PDCurses defines. *)
Definition KEY_DOWN : Z := 258.
Definition KEY_UP : Z := 259.
Definition KEY_LEFT : Z := 260.
Definition KEY_RIGHT : Z := 261.
Definition KEY_F7 : Z := 271.
Definition KEY_A2 : Z := 450.
Definition KEY_B1 : Z := 452.
Definition KEY_B3 : Z := 454.
Definition KEY_C2 : Z := 456.

Definition COLOR_BLACK : Z := 0.
Definition COLOR_BLUE : Z := 4.
Definition COLOR_WHITE : Z := 7.

(** ** The world and the object *)

(** What the program acts on: the file system, the terminal's geometry
    [(height, width)], the calls made on the screen so far (latest first)
    and the lines the user will type at the prompts, one per prompt, each
    the text that the line editing of curses leaves of the characters
    typed before the return key. *)
Record World : Type := mkWorld {
  fs : node;
  maxyx : Z * Z;
  screen : list call;
  typed : list string
}.

(** The fields of an [App] object. *)
Record App : Type := mkApp {
  cursor : Z;
  current_dir : Path;
  screen_height : Z;
  screen_width : Z;
  col_width : Z
}.

Definition State : Type := (App * World)%type.

(** A method: it returns or raises, and leaves a state either way. *)
Definition M (A : Type) : Type := State -> result A * State.

Definition ret {A : Type} (a : A) : M A := fun s => (Ok a, s).

Definition bind {A B : Type} (m : M A) (k : A -> M B) : M B :=
  fun s =>
    match m s with
    | (Ok a, s') => k a s'
    | (Raise e, s') => (Raise e, s')
    end.

Declare Scope app_scope.
Delimit Scope app_scope with app.
Notation "x <- m ;; k" := (bind m (fun x => k))
  (at level 61, m at next level, right associativity) : app_scope.
Notation "m ;; k" := (bind m (fun _ => k))
  (at level 61, right associativity) : app_scope.
Local Open Scope app_scope.

(** [raise e] *)
Definition raise {A : Type} (e : exn) : M A := fun s => (Raise e, s).

Definition lift {A : Type} (r : result A) : M A := fun s => (r, s).

(** [try: body except ...: handler]: [handler e] is [None] when no
    [except] clause matches [e]. *)
Definition try_except {A : Type} (body : M A)
           (handler : exn -> option (M A)) : M A :=
  fun s =>
    match body s with
    | (Ok a, s') => (Ok a, s')
    | (Raise e, s') =>
        match handler e with
        | Some h => h s'
        | None => (Raise e, s')
        end
    end.

(** [except Exception as e: pass] *)
Definition pass_on_Exception (e : exn) : option (M unit) := Some (ret tt).

Definition self : M App := fun s => (Ok (fst s), s).

Definition with_cursor (c : Z) (a : App) : App :=
  mkApp c (current_dir a) (screen_height a) (screen_width a) (col_width a).

Definition with_current_dir (p : Path) (a : App) : App :=
  mkApp (cursor a) p (screen_height a) (screen_width a) (col_width a).

(** [self.cursor = c] *)
Definition set_cursor (c : Z) : M unit :=
  fun '(a, w) => (Ok tt, (with_cursor c a, w)).

(** [self.current_dir = p] *)
Definition set_current_dir (p : Path) : M unit :=
  fun '(a, w) => (Ok tt, (with_current_dir p a, w)).

Definition set_geometry (h wd cw : Z) : M unit :=
  fun '(a, w) => (Ok tt, (mkApp (cursor a) (current_dir a) h wd cw, w)).

(** One call on the screen. *)
Definition scr (c : call) : M unit :=
  fun '(a, w) =>
    (Ok tt, (a, mkWorld (fs w) (maxyx w) (c :: screen w) (typed w))).

Definition getmaxyx : M (Z * Z) := fun s => (Ok (maxyx (snd s)), s).

(** [screen.getstr(y, x, n)]: the next line the user types, as a [bytes]
    object.  The terminal sends the line encoded in UTF-8, and curses
    keeps [n] bytes of it at most, so the last character can arrive cut in
    two; it hands them over as a C string. *)
Definition getstr (y x n : Z) : M string :=
  fun '(a, w) =>
    let line := match typed w with l :: _ => l | [] => EmptyString end in
    (Ok (until_nul (substring 0 (Z.to_nat n) (utf8_encode line))),
     (a, mkWorld (fs w) (maxyx w) (GetStr y x n :: screen w) (tl (typed w)))).

(** A call that reads the file system. *)
Definition fs_get {A : Type} (f : node -> A) : M A :=
  fun s => (Ok (f (fs (snd s))), s).

Definition fs_try {A : Type} (f : node -> result A) : M A :=
  fun s => (f (fs (snd s)), s).

(** A call that changes the file system, or raises and leaves it. *)
Definition fs_do (f : node -> result node) : M unit :=
  fun '(a, w) =>
    match f (fs w) with
    | Ok r => (Ok tt, (a, mkWorld r (maxyx w) (screen w) (typed w)))
    | Raise e => (Raise e, (a, w))
    end.

(** [for i, x in enumerate(l, start): body(i, x)] *)
Fixpoint for_enumerate {A : Type} (start : Z) (l : list A)
         (body : Z -> A -> M unit) : M unit :=
  match l with
  | [] => ret tt
  | x :: r => body start x ;; for_enumerate (start + 1) r body
  end.

(** ** class App *)

(** [__init__]: the fields after construction in working directory [cwd]
    (the geometry fields are assigned by [refresh_screen]). *)
Definition App_init (cwd : Path) : App := mkApp 0 cwd 0 0 0.

Definition _initialize_screen : M unit :=
  scr (CursSet 0) ;;
  scr StartColor ;;
  scr (InitPair 1 COLOR_WHITE COLOR_BLACK) ;;
  scr (InitPair 2 COLOR_BLACK COLOR_WHITE) ;;
  scr (InitPair 3 COLOR_BLUE COLOR_BLACK) ;;
  scr (InitPair 4 COLOR_BLACK COLOR_BLUE).

Definition _draw_border : M unit :=
  a <- self ;;
  scr (VLine 2 (col_width a) "|" (screen_height a)) ;;
  scr (HLine 1 0 "-" (screen_width a)).

Definition _draw_current_directory : M unit :=
  a <- self ;;
  scr (AddStr 0 0 (py_slice_to (col_width a) (str_path (current_dir a)))).

Definition refresh_screen : M unit :=
  scr Clear ;;
  hw <- getmaxyx ;;
  set_geometry (fst hw) (snd hw) (snd hw / 2) ;;
  _draw_border ;;
  _draw_current_directory.

(** The loop of [get_sorted_files] over the children. *)
Fixpoint get_sorted_files_loop (xs : list Path) (dirs files : list string)
  : M (list string * list string) :=
  match xs with
  | [] => ret (dirs, files)
  | x :: r =>
      a <- self ;;
      d <- fs_get (fun root => is_dir root (joinpath_abs (current_dir a) x)) ;;
      if d then get_sorted_files_loop r (dirs ++ [name x]) files
      else get_sorted_files_loop r dirs (files ++ [name x])
  end.

Definition get_sorted_files : M (list string) :=
  a <- self ;;
  xs <- fs_try (fun root => iterdir root (current_dir a)) ;;
  df <- get_sorted_files_loop xs [] [] ;;
  ret (py_sort (fst df) ++ py_sort (snd df)).

Definition _draw_left (text : string) (ypos : Z) (is_selected is_dir : bool)
  : M unit :=
  (if is_selected && is_dir then scr (AttrSet 4 true)
   else if is_dir then scr (AttrSet 3 true)
   else if is_selected then scr (AttrSet 2 false)
   else scr (AttrSet 1 false)) ;;
  a <- self ;;
  (if ypos + 2 <? screen_height a
   then scr (AddStr (ypos + 2) 0 (py_slice_to (col_width a - 1) text))
   else ret tt) ;;
  scr (AttrSet 1 false).

Definition _draw_file_list (files : list string) : M unit :=
  for_enumerate 0 files (fun idx filename =>
    a <- self ;;
    d <- fs_get (fun root => is_dir root (joinpath (current_dir a) filename)) ;;
    _draw_left filename idx (idx =? cursor a) d).

Definition _draw_right (contents : string) (i : Z) : M unit :=
  let contents := replace_tabs contents in
  a <- self ;;
  if (0 <=? i + 2) && (i + 2 <? screen_height a)
  then scr (AddStr (i + 2) (col_width a + 1)
                   (py_slice_to (col_width a - 2) contents))
  else ret tt.

(** [str(e)] of an [OSError] raised for the path [p] (the file name is
    shown in quotes; the escapes of [repr] are not modelled).  No call
    whose exception is formatted raises the other two; of the message of
    a [UnicodeDecodeError] only the start is given. *)
Definition str_exn (e : exn) (p : Path) : string :=
  let at_path msg :=
    String.append msg (String.append ": '" (String.append (str_path p) "'")) in
  match e with
  | IndexError => "list index out of range"
  | UnicodeDecodeError => "'utf-8' codec can't decode bytes"
  | FileNotFoundError => at_path "[Errno 2] No such file or directory"
  | NotADirectoryError => at_path "[Errno 20] Not a directory"
  | IsADirectoryError => at_path "[Errno 21] Is a directory"
  | FileExistsError => at_path "[Errno 17] File exists"
  | OSError_ENOTEMPTY => at_path "[Errno 39] Directory not empty"
  | OSError_EINVAL => at_path "[Errno 22] Invalid argument"
  end.

Definition _get_file_or_folder_contents (item : string) : M (list string) :=
  a <- self ;;
  let target := joinpath (current_dir a) item in
  contents <-
    try_except
      (fs_try (fun root => read_text root target))
      (fun e =>
         match e with
         | IsADirectoryError =>
             Some (names <- fs_try (fun root => os_listdir root target) ;;
                   ret (str_join ", " names))
         | _ =>
             Some (ret (String.append "Unable to open the file or directory: "
                                      (str_exn e target)))
         end) ;;
  ret (str_split NL contents).

Definition _show_selected_file_or_folder_contents (files : list string)
  : M unit :=
  a <- self ;;
  item <- lift (py_index files (cursor a)) ;;
  contents <- _get_file_or_folder_contents item ;;
  for_enumerate 0 contents (fun i line => _draw_right line i).

Definition _try_enter_directory (files : list string) : M unit :=
  try_except
    (a <- self ;;
     item <- lift (py_index files (cursor a)) ;;
     let new_path := joinpath (current_dir a) item in
     d <- fs_get (fun root => is_dir root new_path) ;;
     if d then set_current_dir new_path ;; set_cursor 0
     else ret tt)
    pass_on_Exception.

Definition _try_remove_file (files : list string) : M unit :=
  try_except
    (a <- self ;;
     item <- lift (py_index files (cursor a)) ;;
     fs_do (fun root => os_remove root (joinpath (current_dir a) item)))
    pass_on_Exception.

Definition _ask_user_input (prompt : string) : M string :=
  a <- self ;;
  scr (AddStr (screen_height a - 1) 0 prompt) ;;
  scr Echo ;;
  answer <- getstr (screen_height a - 1) (str_len prompt) 20 ;;
  user_input <- lift (utf8_decode answer) ;;
  scr NoEcho ;;
  ret user_input.

Definition _try_rename_file (files : list string) : M unit :=
  new_name <- _ask_user_input "Enter new name: " ;;
  try_except
    (a <- self ;;
     item <- lift (py_index files (cursor a)) ;;
     fs_do (fun root => os_rename root (joinpath (current_dir a) item)
                                  (joinpath (current_dir a) new_name)))
    pass_on_Exception.

Definition _try_create_directory : M unit :=
  new_dir <- _ask_user_input "Enter directory name: " ;;
  try_except
    (a <- self ;;
     fs_do (fun root => os_mkdir root (joinpath (current_dir a) new_dir)))
    pass_on_Exception.

Definition process_key_press (files : list string) (key : Z) : M unit :=
  a <- self ;;
  if py_in key [KEY_UP; ord "k"; KEY_A2] && (cursor a >? 0) then
    set_cursor (cursor a - 1)
  else if py_in key [KEY_DOWN; ord "j"; KEY_C2]
          && (cursor a <? len files - 1) then
    set_cursor (cursor a + 1)
  else if py_in key [KEY_LEFT; KEY_B1; ord "h"] then
    set_current_dir (parent (current_dir a)) ;;
    set_cursor 0
  else if py_in key [KEY_RIGHT; KEY_B3; ord "l"] then
    _try_enter_directory files
  else if key =? ord "x" then
    _try_remove_file files
  else if key =? ord "a" then
    _try_rename_file files
  else if key =? KEY_F7 then
    _try_create_directory
  else ret tt.

(** What is drawn in one iteration of [run] before the key is read; it
    returns the entries the iteration works with. *)
Definition render : M (list string) :=
  refresh_screen ;;
  files <- get_sorted_files ;;
  _draw_file_list files ;;
  _show_selected_file_or_folder_contents files ;;
  ret files.

(** How [run] stands when the keys pressed so far are used up. *)
Inductive run_state : Type :=
| Terminated
| AwaitingKey.

(** [run] on the keys the user presses, one [getch] per iteration. *)
Fixpoint run (keys : list Z) : M run_state :=
  files <- render ;;
  match keys with
  | [] => ret AwaitingKey
  | key :: later =>
      if key =? ord "q" then ret Terminated
      else process_key_press files key ;; run later
  end.

(** [main]: construct the object, then [run]. *)
Definition main (cwd : Path) (keys : list Z) (w : World)
  : result run_state * State :=
  (_initialize_screen ;; run keys) (App_init cwd, w).

(** * Definitions used in the statements *)

(** The order of [l.sort()] on strings. *)
Definition str_le (x y : string) : Prop := String.leb x y = true.

(** The keys [process_key_press] tests for, branch by branch. *)
Definition up_keys : list Z := [KEY_UP; ord "k"; KEY_A2].
Definition down_keys : list Z := [KEY_DOWN; ord "j"; KEY_C2].
Definition parent_keys : list Z := [KEY_LEFT; KEY_B1; ord "h"].
Definition enter_keys : list Z := [KEY_RIGHT; KEY_B3; ord "l"].
Definition mutation_keys : list Z := [ord "x"; ord "a"; KEY_F7].

(** Every key with a binding, [q] of [run] included. *)
Definition bound_keys : list Z :=
  up_keys ++ down_keys ++ parent_keys ++ enter_keys ++ mutation_keys
  ++ [ord "q"].

(** A sequence of key presses on one list of entries. *)
Fixpoint process_keys (files : list string) (keys : list Z) : M unit :=
  match keys with
  | [] => ret tt
  | key :: later => process_key_press files key ;; process_keys files later
  end.

(** The answer at the next prompt as [getstr] hands it over: the first 20
    bytes of the line, up to a NUL byte. *)
Definition typed_name (w : World) : string :=
  until_nul (substring 0 20 (utf8_encode (hd EmptyString (typed w)))).

(** The world when [getstr] has returned at the prompt: the line is used
    up and echoing is on. *)
Definition at_prompt (prompt : string) (a : App) (w : World) : World :=
  mkWorld (fs w) (maxyx w)
          (GetStr (screen_height a - 1) (str_len prompt) 20
                  :: Echo :: AddStr (screen_height a - 1) 0 prompt :: screen w)
          (tl (typed w)).

(** The world after [_ask_user_input prompt], when it returns. *)
Definition after_prompt (prompt : string) (a : App) (w : World) : World :=
  mkWorld (fs w) (maxyx w)
          (NoEcho :: GetStr (screen_height a - 1) (str_len prompt) 20
                  :: Echo :: AddStr (screen_height a - 1) 0 prompt :: screen w)
          (tl (typed w)).

Definition with_fs (r : node) (w : World) : World :=
  mkWorld r (maxyx w) (screen w) (typed w).

(** The state [refresh_screen] leaves. *)
Definition refreshed (a : App) (w : World) : State :=
  let h := fst (maxyx w) in
  let wd := snd (maxyx w) in
  (mkApp (cursor a) (current_dir a) h wd (wd / 2),
   mkWorld (fs w) (maxyx w)
           (AddStr 0 0 (py_slice_to (wd / 2) (str_path (current_dir a)))
            :: HLine 1 0 "-" wd :: VLine 2 (wd / 2) "|" h :: Clear :: screen w)
           (typed w)).

(** Whether the child [nm] of [cur] is a directory. *)
Definition child_is_dir (root : node) (cur : Path) (nm : string) : bool :=
  is_dir root (cur ++ [nm]).

Fixpoint has_char (c : ascii) (s : string) : bool :=
  match s with
  | EmptyString => false
  | String c' r => Ascii.eqb c' c || has_char c r
  end.

(** A name a directory entry can have: not empty, not [.] or [..], and
    without a slash. *)
Definition valid_name (s : string) : bool :=
  negb (String.eqb s EmptyString) && negb (String.eqb s ".")
  && negb (String.eqb s "..") && negb (has_char "/" s).

Fixpoint distinct (l : list string) : bool :=
  match l with
  | [] => true
  | x :: r => negb (existsb (String.eqb x) r) && distinct r
  end.

(** A well-formed tree: in every directory the entries have valid names,
    no two of them the same. *)
Fixpoint wf_node (n : node) : bool :=
  match n with
  | File _ => true
  | Dir ch =>
      forallb valid_name (map fst ch) && distinct (map fst ch)
      && (fix all (l : list (string * node)) : bool :=
            match l with
            | [] => true
            | (_, c) :: r => wf_node c && all r
            end) ch
  end.

(** Two small file systems for the examples. *)
Definition home_fs : node :=
  Dir [("home", Dir [("c", File "cc"); ("a", File "aa"); ("b", Dir []);
                     ("docs", Dir [("in", File "x")])])].

Definition abc_fs : node :=
  Dir [("home", Dir [("a", File "1"); ("b", File "2"); ("c", File "3")])].

(** ** Drawing and listing, for the further properties *)

(** The world after further calls on the screen (latest first). *)
Definition add_calls (added : list call) (w : World) : World :=
  mkWorld (fs w) (maxyx w) (added ++ screen w) (typed w).

(** [m], run by the object [a], only draws: it leaves the object, the file
    system and the pending input as they are, every call it makes on the
    screen satisfies [P], and its result satisfies [Q]. *)
Definition only_draws {A : Type} (a : App) (P : call -> Prop)
           (Q : result A -> Prop) (m : M A) : Prop :=
  forall w, exists r added,
    m (a, w) = (r, (a, add_calls added w)) /\ Q r /\ Forall P added.

Definition returns {A : Type} (r : result A) : Prop :=
  match r with Ok _ => True | Raise _ => False end.

(** A call that [_draw_file_list] may make: an attribute change, or a text
    in column 0 on a row of the list that is on the screen; when the column
    is at least one wide the text leaves its last cell free. *)
Definition in_left_pane (a : App) (c : call) : Prop :=
  match c with
  | AttrSet _ _ => True
  | AddStr y x text =>
      x = 0 /\ 2 <= y < screen_height a
      /\ (1 <= col_width a -> str_len text <= col_width a - 1)
  | _ => False
  end.

(** A call that the preview may make: a text right of the divider on a row
    of the screen from the third on; when the column is at least two wide
    the text is at most two shorter than the column. *)
Definition in_right_pane (a : App) (c : call) : Prop :=
  match c with
  | AddStr y x text =>
      x = col_width a + 1 /\ 2 <= y < screen_height a
      /\ (2 <= col_width a -> str_len text <= col_width a - 2)
  | _ => False
  end.

(** The three outcomes of [_get_file_or_folder_contents]. *)
Definition preview_text (root : node) (target : Path) : string :=
  match os_stat root target with
  | Ok (_, File t) => universal_newlines t
  | Ok (_, Dir ch) => str_join ", " (map fst ch)
  | Raise e =>
      String.append "Unable to open the file or directory: "
                    (str_exn e target)
  end.

(** Whether [l[i]] is defined. *)
Definition index_in_range {A : Type} (l : list A) (i : Z) : bool :=
  (- len l <=? i) && (i <? len l).

(** What [get_sorted_files] returns for the listing [names]. *)
Definition sorted_entries (root : node) (cur : Path) (names : list string)
  : list string :=
  py_sort (filter (child_is_dir root cur) names)
  ++ py_sort (filter (fun nm => negb (child_is_dir root cur nm)) names).

(** The result of one drawing of the screen. *)
Definition render_result (a : App) (w : World) : result (list string) :=
  match os_listdir (fs w) (current_dir a) with
  | Raise e => Raise e
  | Ok names =>
      let files := sorted_entries (fs w) (current_dir a) names in
      if index_in_range files (cursor a) then Ok files else Raise IndexError
  end.

(** A call that [refresh_screen] makes. *)
Definition drawn_by_refresh (a : App) (c : call) : Prop :=
  c = Clear
  \/ c = VLine 2 (col_width a) "|" (screen_height a)
  \/ c = HLine 1 0 "-" (screen_width a)
  \/ c = AddStr 0 0 (py_slice_to (col_width a) (str_path (current_dir a))).


(** An answer of eleven characters, [a] and ten times the letter e with
    an acute accent (U+00E9), which takes two bytes. *)
Definition accented_name : string :=
  String "a" (string_of_list_ascii (repeat (ascii_of_nat 233) 10)).

(** A text with the line ends of DOS. *)
Definition dos_text : string :=
  String.append "one" (String CR (String NL
    (String.append "two" (String CR (String NL EmptyString))))).

(** [home_fs] with the entries of [/home] enumerated in another order. *)
Definition home_fs_reordered : node :=
  Dir [("home", Dir [("docs", Dir [("in", File "x")]); ("b", Dir []);
                     ("a", File "aa"); ("c", File "cc")])].

(** * Properties *)

(** ** The order on strings and [py_sort] *)

Section Sorting.

Lemma ascii_compare_lt a b :
  Ascii.compare a b = Lt <-> (N_of_ascii a < N_of_ascii b)%N.
Proof. unfold Ascii.compare. apply N.compare_lt_iff. Qed.

Lemma ascii_compare_refl a : Ascii.compare a a = Eq.
Proof. unfold Ascii.compare. apply N.compare_refl. Qed.

Lemma compare_refl s : String.compare s s = Eq.
Proof.
  induction s as [|c s IH]; simpl; [reflexivity|].
  now rewrite ascii_compare_refl.
Qed.

Lemma compare_lt_trans s1 : forall s2 s3,
  String.compare s1 s2 = Lt -> String.compare s2 s3 = Lt ->
  String.compare s1 s3 = Lt.
Proof.
  induction s1 as [|a s1 IH]; intros [|b s2] [|c s3]; simpl; try congruence.
  destruct (Ascii.compare a b) eqn:Hab; try discriminate;
  destruct (Ascii.compare b c) eqn:Hbc; try discriminate; intros H1 H2.
  - apply Ascii.compare_eq_iff in Hab, Hbc. subst.
    rewrite ascii_compare_refl. eauto.
  - apply Ascii.compare_eq_iff in Hab. subst. now rewrite Hbc.
  - apply Ascii.compare_eq_iff in Hbc. subst. now rewrite Hab.
  - apply ascii_compare_lt in Hab. apply ascii_compare_lt in Hbc.
    assert (H : Ascii.compare a c = Lt)
      by (apply ascii_compare_lt; eapply N.lt_trans; eassumption).
    now rewrite H.
Qed.

Lemma leb_cases x y :
  String.leb x y = true <-> String.compare x y = Lt \/ x = y.
Proof.
  unfold String.leb. split.
  - destruct (String.compare x y) eqn:H; intros; try discriminate.
    + right. now apply String.compare_eq_iff.
    + now left.
  - intros [H | ->]; [now rewrite H | now rewrite compare_refl].
Qed.

(** [str_le] is the lexicographic order of the character codes. *)
Lemma str_le_lexicographic x y :
  str_le x y <->
  match x, y with
  | EmptyString, _ => True
  | String _ _, EmptyString => False
  | String a s, String b t =>
      (N_of_ascii a < N_of_ascii b)%N \/ (a = b /\ str_le s t)
  end.
Proof.
  unfold str_le, String.leb. destruct x as [|a s], y as [|b t]; simpl;
    try (split; [trivial | reflexivity]); try (split; [discriminate | tauto]).
  destruct (Ascii.compare a b) eqn:Hab.
  - apply Ascii.compare_eq_iff in Hab. subst. split; [auto|].
    intros [H | [_ H]]; [exfalso; revert H; apply N.lt_irrefl | exact H].
  - apply ascii_compare_lt in Hab. split; auto.
  - split; [discriminate|]. unfold Ascii.compare in Hab.
    apply N.compare_gt_iff in Hab. intros [H | [-> _]].
    + exfalso. apply (N.lt_irrefl (N_of_ascii a)). eapply N.lt_trans; eauto.
    + exfalso. revert Hab. apply N.lt_irrefl.
Qed.

Lemma str_le_trans x y z : str_le x y -> str_le y z -> str_le x z.
Proof.
  unfold str_le. rewrite !leb_cases.
  intros [H1 | ->] [H2 | ->]; auto.
  left. eapply compare_lt_trans; eauto.
Qed.

Lemma ltb_false_leb x y : String.ltb x y = false -> str_le y x.
Proof.
  unfold String.ltb, str_le, String.leb. rewrite (String.compare_antisym x y).
  destruct (String.compare y x); simpl; congruence.
Qed.

Lemma ltb_true_leb x y : String.ltb x y = true -> str_le x y.
Proof.
  unfold String.ltb, str_le, String.leb.
  destruct (String.compare x y); congruence.
Qed.

Lemma sort_insert_perm x l : Permutation (sort_insert x l) (x :: l).
Proof.
  induction l as [|y l IH]; simpl; [reflexivity|].
  destruct (String.ltb x y); [reflexivity|].
  rewrite IH. apply perm_swap.
Qed.

Lemma sort_insert_sorted x l :
  Sorted str_le l -> Sorted str_le (sort_insert x l).
Proof.
  induction 1 as [|y l Hs IH Hd]; simpl.
  - repeat constructor.
  - destruct (String.ltb x y) eqn:Hxy.
    + constructor; [now constructor|]. constructor. now apply ltb_true_leb.
    + constructor; [exact IH|].
      apply ltb_false_leb in Hxy.
      destruct Hd as [|z l' Hyz]; simpl.
      * now constructor.
      * destruct (String.ltb x z); now constructor.
Qed.

Lemma py_sort_acc_perm l : forall acc,
  Permutation (fold_left (fun a x => sort_insert x a) l acc) (acc ++ l).
Proof.
  induction l as [|x l IH]; intros acc; simpl.
  - now rewrite app_nil_r.
  - rewrite IH, sort_insert_perm. apply Permutation_middle.
Qed.

Lemma py_sort_perm l : Permutation (py_sort l) l.
Proof. apply (py_sort_acc_perm l []). Qed.

Lemma py_sort_acc_sorted l : forall acc,
  Sorted str_le acc ->
  Sorted str_le (fold_left (fun a x => sort_insert x a) l acc).
Proof.
  induction l as [|x l IH]; intros acc H; simpl; [exact H|].
  apply IH. now apply sort_insert_sorted.
Qed.

Lemma py_sort_sorted l : StronglySorted str_le (py_sort l).
Proof.
  apply Sorted_StronglySorted.
  - intros x y z. apply str_le_trans.
  - apply py_sort_acc_sorted. constructor.
Qed.

Lemma strongly_sorted_unique l1 : forall l2,
  StronglySorted str_le l1 -> StronglySorted str_le l2 ->
  Permutation l1 l2 -> l1 = l2.
Proof.
  induction l1 as [|x l1 IH]; intros l2 H1 H2 HP.
  - apply Permutation_nil in HP. now subst.
  - destruct l2 as [|y l2].
    + apply Permutation_sym, Permutation_nil in HP. discriminate.
    + inversion H1 as [|? ? Hs1 Hx]; inversion H2 as [|? ? Hs2 Hy]; subst.
      assert (x = y) as ->.
      { assert (Hxin : In x (y :: l2))
          by (eapply Permutation_in; [exact HP | now left]).
        assert (Hyin : In y (x :: l1))
          by (eapply Permutation_in; [symmetry; exact HP | now left]).
        destruct Hxin as [-> | Hxin]; [reflexivity|].
        destruct Hyin as [-> | Hyin]; [reflexivity|].
        rewrite Forall_forall in Hx, Hy.
        apply String.leb_antisym; [apply Hx | apply Hy]; assumption. }
      f_equal. apply IH; auto. now apply Permutation_cons_inv in HP.
Qed.

(** Any sorted rearrangement of [l] is what [py_sort] returns. *)
Lemma py_sort_unique l l' :
  Permutation l l' -> StronglySorted str_le l' -> py_sort l = l'.
Proof.
  intros HP Hs. apply strongly_sorted_unique; auto using py_sort_sorted.
  now rewrite py_sort_perm.
Qed.

Lemma filter_partition_perm {A : Type} (f : A -> bool) l :
  Permutation (filter f l ++ filter (fun x => negb (f x)) l) l.
Proof.
  induction l as [|x l IH]; simpl; [reflexivity|].
  destruct (f x); simpl.
  - now constructor.
  - rewrite <- Permutation_middle. now constructor.
Qed.

End Sorting.

(** ** Indexing, slicing and paths *)

Lemma py_in_In key keys : py_in key keys = true <-> In key keys.
Proof.
  unfold py_in. rewrite existsb_exists. split.
  - intros [x [Hin Heq]]. apply Z.eqb_eq in Heq. now subst.
  - intros Hin. exists key. split; [exact Hin | apply Z.eqb_refl].
Qed.

Lemma py_index_nil {A : Type} (i : Z) : py_index (@nil A) i = Raise IndexError.
Proof.
  unfold py_index, len. simpl.
  destruct (i <? 0) eqn:Hi; [rewrite Z.add_0_r|];
    destruct (0 <=? i) eqn:H0; destruct (i <? 0) eqn:H1; try reflexivity; lia.
Qed.

Lemma py_index_In {A : Type} (l : list A) i x : py_index l i = Ok x -> In x l.
Proof.
  unfold py_index. destruct (_ && _); [|discriminate].
  destruct (nth_error l _) eqn:Hn; [|discriminate].
  intros [= <-]. eapply nth_error_In; eauto.
Qed.

Lemma length_substring_0 m s :
  String.length (substring 0 m s) = Nat.min m (String.length s).
Proof.
  revert s. induction m as [|m IH]; intros [|c s]; simpl; auto.
Qed.

(** A slice never reaches beyond the end of the string. *)
Lemma py_slice_to_length stop s :
  str_len (py_slice_to stop s) = slice_stop stop s
  /\ 0 <= slice_stop stop s <= str_len s.
Proof.
  unfold py_slice_to, str_len. rewrite length_substring_0.
  unfold slice_stop, str_len. lia.
Qed.

Lemma name_child cur nm : name (cur ++ [nm]) = nm.
Proof. unfold name. apply last_last. Qed.

Lemma parent_child p s : parent (p ++ [s]) = p.
Proof. apply removelast_last. Qed.

Lemma str_split_no_sep sep s :
  has_char sep s = false -> str_split sep s = [s].
Proof.
  induction s as [|c r IH]; simpl; [reflexivity|].
  intros H. apply orb_false_elim in H as [Hc Hr].
  rewrite Hc, (IH Hr). reflexivity.
Qed.

(** Joining the name of an entry appends one component. *)
Lemma joinpath_valid p s : valid_name s = true -> joinpath p s = p ++ [s].
Proof.
  unfold valid_name. rewrite !andb_true_iff, !negb_true_iff.
  intros [[[He Hd] _] Hs]. unfold joinpath, parse_parts.
  rewrite (str_split_no_sep _ _ Hs). simpl. rewrite He, Hd. simpl.
  destruct s as [|c r]; simpl in *; [reflexivity|].
  apply orb_false_elim in Hs as [-> _]. reflexivity.
Qed.

(** ** The file system *)

Lemma find_child_set_child_ne k nm v ch :
  k <> nm -> find_child k (set_child nm v ch) = find_child k ch.
Proof.
  intros Hne. induction ch as [|[k' c] r IH]; simpl.
  - destruct v; simpl; [|reflexivity].
    destruct (String.eqb_spec nm k); congruence.
  - destruct (String.eqb_spec k' nm) as [->|Hk'].
    + destruct (String.eqb_spec nm k) as [->|_]; [congruence|].
      destruct v; simpl; [|reflexivity].
      destruct (String.eqb_spec nm k); congruence.
    + simpl. now rewrite IH.
Qed.

Lemma find_child_set_child_eq nm v c ch :
  find_child nm ch = Some c ->
  find_child nm (set_child nm (Some v) ch) = Some v.
Proof.
  induction ch as [|[k' c'] r IH]; simpl; [discriminate|].
  destruct (String.eqb_spec k' nm) as [->|Hk']; simpl.
  - now rewrite String.eqb_refl.
  - destruct (String.eqb_spec k' nm); [congruence | exact IH].
Qed.

Lemma lookup_file_inv q t n :
  lookup q (File t) = Some n -> q = [] /\ n = File t.
Proof. destruct q; simpl; [intros [= <-]; auto | discriminate]. Qed.

(** Unlinking a file leaves every directory a directory. *)
Lemma lookup_dir_after_unlink cp : forall root t,
  lookup cp root = Some (File t) ->
  forall q ch, lookup q root = Some (Dir ch) ->
  exists ch', lookup q (set_at cp None root) = Some (Dir ch').
Proof.
  induction cp as [|k cp' IH]; intros root t Hcp q ch Hq.
  - exists ch. exact Hq.
  - destruct root as [t0|entries]; [discriminate|]. simpl in Hcp.
    destruct (find_child k entries) as [sub|] eqn:Hk; [|discriminate].
    assert (Hnew : exists v,
               set_at (k :: cp') None (Dir entries)
               = Dir (set_child k v entries)
               /\ (forall q' ch0, lookup q' sub = Some (Dir ch0) ->
                   exists w ch1, v = Some w /\ lookup q' w = Some (Dir ch1))).
    { destruct cp' as [|k' cp''].
      - exists None. split; [reflexivity|]. intros q' ch0 Hq'.
        simpl in Hcp. injection Hcp as ->.
        apply lookup_file_inv in Hq' as [_ Hq']. discriminate.
      - exists (Some (set_at (k' :: cp'') None sub)). split.
        + simpl. now rewrite Hk.
        + intros q' ch0 Hq'. destruct (IH sub t Hcp q' ch0 Hq') as [ch1 H1].
          eauto. }
    destruct Hnew as (v & -> & Hsub).
    destruct q as [|k2 q']; [simpl; eauto|]. simpl in Hq |- *.
    destruct (String.eqb_spec k2 k) as [->|Hne].
    + rewrite Hk in Hq. destruct (Hsub q' ch Hq) as (w & ch1 & -> & Hw).
      rewrite (find_child_set_child_eq _ _ _ _ Hk). eauto.
    + rewrite (find_child_set_child_ne _ _ _ _ Hne).
      destruct (find_child k2 entries); [eauto | discriminate].
Qed.

Section Unlink.

Variables (cp : Path) (root : node) (t : string).
Hypothesis Hcp : lookup cp root = Some (File t).

(** A path resolves after the unlink to where it resolved before. *)
Lemma canon_after_unlink : forall p acc r,
  canon root acc p = Ok r -> canon (set_at cp None root) acc p = Ok r.
Proof.
  induction p as [|c p' IH]; intros acc r Hc; simpl in *.
  - exact Hc.
  - destruct (lookup acc root) as [[t0|ch]|] eqn:Hacc; try discriminate.
    destruct (lookup_dir_after_unlink cp root t Hcp acc ch Hacc) as [ch' ->].
    destruct (String.eqb c ".."); now apply IH.
Qed.

End Unlink.

Lemma os_stat_inv root p cp n :
  os_stat root p = Ok (cp, n) ->
  canon root [] p = Ok cp /\ lookup cp root = Some n.
Proof.
  unfold os_stat. destruct (canon root [] p) as [cp'|e]; [|discriminate].
  destruct (lookup cp' root) eqn:Hl; [|discriminate].
  intros [= -> ->]. auto.
Qed.

Lemma is_dir_inv root p :
  is_dir root p = true -> exists cp ch, os_stat root p = Ok (cp, Dir ch).
Proof.
  unfold is_dir. destruct (os_stat root p) as [[cp [t|ch]]|e];
    try discriminate. eauto.
Qed.

Lemma os_remove_directory root p :
  is_dir root p = true -> os_remove root p = Raise IsADirectoryError.
Proof.
  intros H. apply is_dir_inv in H as (cp & ch & H).
  unfold os_remove. now rewrite H.
Qed.

Lemma os_remove_keeps_directories root p root' q :
  os_remove root p = Ok root' -> is_dir root q = true -> is_dir root' q = true.
Proof.
  unfold os_remove. destruct (os_stat root p) as [[cp [t|ch]]|e] eqn:Hs;
    try discriminate. intros [= <-] Hq.
  apply os_stat_inv in Hs as [_ Hcp].
  apply is_dir_inv in Hq as (cq & chq & Hq).
  apply os_stat_inv in Hq as [Hcq Hlq].
  unfold is_dir, os_stat.
  rewrite (canon_after_unlink cp root t Hcp q [] cq Hcq).
  destruct (lookup_dir_after_unlink cp root t Hcp cq chq Hlq) as [ch' ->].
  reflexivity.
Qed.

Lemma distinct_NoDup l : distinct l = true -> NoDup l.
Proof.
  induction l as [|x r IH]; simpl; [constructor|].
  rewrite andb_true_iff, negb_true_iff. intros [Hx Hr].
  constructor; [|auto]. intros Hin.
  assert (existsb (String.eqb x) r = true); [|congruence].
  apply existsb_exists. exists x. split; [exact Hin | apply String.eqb_refl].
Qed.

Lemma wf_find_child k ch c :
  wf_node (Dir ch) = true -> find_child k ch = Some c -> wf_node c = true.
Proof.
  simpl. rewrite !andb_true_iff. intros [_ Hall].
  induction ch as [|[k' c'] r IH]; simpl; [discriminate|].
  apply andb_true_iff in Hall as [Hc' Hr].
  destruct (String.eqb k' k); [intros [= <-]; exact Hc' | auto].
Qed.

Lemma wf_lookup p : forall root n,
  wf_node root = true -> lookup p root = Some n -> wf_node n = true.
Proof.
  induction p as [|c p' IH]; intros root n Hwf; simpl.
  - now intros [= <-].
  - destruct root as [t|ch]; [discriminate|].
    destruct (find_child c ch) as [sub|] eqn:Hc; [|discriminate].
    apply IH. eapply wf_find_child; eauto.
Qed.

(** In a well-formed tree a listing has valid names, each once. *)
Lemma wf_listing root p names :
  wf_node root = true -> os_listdir root p = Ok names ->
  Forall (fun nm => valid_name nm = true) names /\ NoDup names.
Proof.
  intros Hwf. unfold os_listdir.
  destruct (os_stat root p) as [[cp [t|ch]]|e] eqn:Hs; try discriminate.
  intros [= <-]. apply os_stat_inv in Hs as [_ Hl].
  pose proof (wf_lookup _ _ _ Hwf Hl) as Hd. simpl in Hd.
  rewrite !andb_true_iff in Hd. destruct Hd as [[Hv Hn] _]. split.
  - apply Forall_forall. now apply forallb_forall.
  - now apply distinct_NoDup.
Qed.

(** On POSIX a file renamed to the name of a file replaces it. *)
Example rename_onto_file_replaces :
  os_rename abc_fs ["home"; "a"] ["home"; "b"]
  = Ok (Dir [("home", Dir [("b", File "1"); ("c", File "3")])]).
Proof. reflexivity. Qed.

(** ** What the methods compute *)

Ltac key_cases H :=
  apply py_in_In in H; simpl in H;
  repeat (destruct H as [H | H]); try contradiction; subst.

Ltac step := cbn -[Z.gtb Z.ltb Z.leb Z.sub Z.add len py_index py_slice_to].

(** The branches of [process_key_press], one equation per kind of key. *)
Lemma press_up files key a w :
  py_in key up_keys = true ->
  process_key_press files key (a, w) =
  (Ok tt, (if cursor a >? 0 then with_cursor (cursor a - 1) a else a, w)).
Proof.
  intros Hk. key_cases Hk; unfold process_key_press, bind, self; step;
    destruct (cursor a >? 0); reflexivity.
Qed.

Lemma press_down files key a w :
  py_in key down_keys = true ->
  process_key_press files key (a, w) =
  (Ok tt, (if cursor a <? len files - 1
           then with_cursor (cursor a + 1) a else a, w)).
Proof.
  intros Hk. key_cases Hk; unfold process_key_press, bind, self; step;
    destruct (cursor a <? len files - 1); reflexivity.
Qed.

Lemma press_parent files key a w :
  py_in key parent_keys = true ->
  process_key_press files key (a, w) =
  (Ok tt, (with_cursor 0 (with_current_dir (parent (current_dir a)) a), w)).
Proof. intros Hk. key_cases Hk; reflexivity. Qed.

Lemma press_enter files key s :
  py_in key enter_keys = true ->
  process_key_press files key s = _try_enter_directory files s.
Proof. intros Hk. destruct s as [a w]. key_cases Hk; reflexivity. Qed.

Lemma press_x files s :
  process_key_press files (ord "x") s = _try_remove_file files s.
Proof. destruct s; reflexivity. Qed.

Lemma press_a files s :
  process_key_press files (ord "a") s = _try_rename_file files s.
Proof. destruct s; reflexivity. Qed.

Lemma press_F7 files s :
  process_key_press files KEY_F7 s = _try_create_directory s.
Proof. destruct s; reflexivity. Qed.

Lemma press_parent_root files key a w :
  py_in key parent_keys = true ->
  current_dir a = [] ->
  process_key_press files key (a, w) = (Ok tt, (with_cursor 0 a, w)).
Proof.
  intros Hk Hroot. rewrite (press_parent _ _ _ _ Hk), Hroot.
  destruct a; simpl in *; subst; reflexivity.
Qed.

Lemma press_parent_root_again files keys : forall a w,
  Forall (fun k => py_in k parent_keys = true) keys ->
  current_dir a = [] ->
  process_keys files keys (with_cursor 0 a, w) = (Ok tt, (with_cursor 0 a, w)).
Proof.
  induction keys as [|k ks IH]; intros a w Hks Hroot; [reflexivity|].
  inversion Hks as [|? ? Hk Hks']; subst. simpl. unfold bind.
  rewrite (press_parent_root _ _ _ _ Hk) by exact Hroot.
  apply (IH a w Hks' Hroot).
Qed.









(** The prompt: what it returns is the decoded answer, and when the answer
    does not decode the exception leaves from before [noecho]. *)
Lemma ask_user_input_eq prompt a w :
  _ask_user_input prompt (a, w) =
  match utf8_decode (typed_name w) with
  | Ok user_input => (Ok user_input, (a, after_prompt prompt a w))
  | Raise e => (Raise e, (a, at_prompt prompt a w))
  end.
Proof.
  unfold _ask_user_input, bind, self, scr, getstr, lift, typed_name,
    after_prompt, at_prompt.
  cbn -[substring str_len Z.sub utf8_decode utf8_encode Z.to_nat until_nul].
  change (Z.to_nat 20) with 20%nat.
  destruct (typed w) as [|line rest]; cbn [hd tl];
    destruct (utf8_decode _); reflexivity.
Qed.

Lemma ask_user_input_inv prompt a w answer s1 :
  _ask_user_input prompt (a, w) = (Ok answer, s1) ->
  utf8_decode (typed_name w) = Ok answer
  /\ s1 = (a, after_prompt prompt a w).
Proof.
  rewrite ask_user_input_eq.
  destruct (utf8_decode (typed_name w)); [|discriminate].
  intros [= -> <-]. auto.
Qed.

Lemma try_enter_directory_eq files a w :
  _try_enter_directory files (a, w) =
  (Ok tt,
   (match py_index files (cursor a) with
    | Ok item =>
        if is_dir (fs w) (joinpath (current_dir a) item)
        then with_cursor 0
               (with_current_dir (joinpath (current_dir a) item) a)
        else a
    | Raise _ => a
    end, w)).
Proof.
  unfold _try_enter_directory, try_except, bind, self, lift, fs_get.
  cbn -[py_index is_dir joinpath].
  destruct (py_index files (cursor a)) as [item|e]; [|reflexivity].
  cbn -[py_index is_dir joinpath].
  destruct (is_dir _ _); reflexivity.
Qed.

Lemma try_remove_file_eq files a w :
  _try_remove_file files (a, w) =
  (Ok tt,
   (a, match py_index files (cursor a) with
       | Ok item =>
           match os_remove (fs w) (joinpath (current_dir a) item) with
           | Ok r => with_fs r w
           | Raise _ => w
           end
       | Raise _ => w
       end)).
Proof.
  unfold _try_remove_file, try_except, bind, self, lift, fs_do.
  cbn -[py_index os_remove joinpath].
  destruct (py_index files (cursor a)) as [item|e]; [|reflexivity].
  destruct (os_remove _ _); reflexivity.
Qed.

Lemma try_rename_file_eq files a w :
  _try_rename_file files (a, w) =
  match utf8_decode (typed_name w) with
  | Ok new_name =>
      (Ok tt,
       (a, let w1 := after_prompt "Enter new name: " a w in
           match py_index files (cursor a) with
           | Ok item =>
               match os_rename (fs w) (joinpath (current_dir a) item)
                               (joinpath (current_dir a) new_name) with
               | Ok r => with_fs r w1
               | Raise _ => w1
               end
           | Raise _ => w1
           end))
  | Raise e => (Raise e, (a, at_prompt "Enter new name: " a w))
  end.
Proof.
  unfold _try_rename_file, bind at 1. rewrite ask_user_input_eq.
  destruct (utf8_decode (typed_name w)) as [new_name|e]; [|reflexivity].
  unfold try_except, bind, self, lift, fs_do.
  cbn -[py_index os_rename joinpath].
  destruct (py_index files (cursor a)) as [item|e]; [|reflexivity].
  destruct (os_rename _ _ _); reflexivity.
Qed.

Lemma try_create_directory_eq a w :
  _try_create_directory (a, w) =
  match utf8_decode (typed_name w) with
  | Ok new_dir =>
      (Ok tt,
       (a, let w1 := after_prompt "Enter directory name: " a w in
           match os_mkdir (fs w) (joinpath (current_dir a) new_dir) with
           | Ok r => with_fs r w1
           | Raise _ => w1
           end))
  | Raise e => (Raise e, (a, at_prompt "Enter directory name: " a w))
  end.
Proof.
  unfold _try_create_directory, bind at 1. rewrite ask_user_input_eq.
  destruct (utf8_decode (typed_name w)) as [new_dir|e]; [|reflexivity].
  unfold try_except, bind, self, lift, fs_do.
  cbn -[os_mkdir joinpath].
  destruct (os_mkdir _ _); reflexivity.
Qed.

(** Whatever is selected, deleting leaves the object as it is and every
    directory of the file system a directory. *)
Lemma delete_keeps_directories files a w :
  exists w',
    process_key_press files (ord "x") (a, w) = (Ok tt, (a, w'))
    /\ forall p, is_dir (fs w) p = true -> is_dir (fs w') p = true.
Proof.
  rewrite press_x, try_remove_file_eq. eexists. split; [reflexivity|].
  intros p Hp. destruct (py_index files (cursor a)) as [item|e]; [|exact Hp].
  destruct (os_remove _ _) as [r|e] eqn:Hr; [|exact Hp].
  simpl. eapply os_remove_keeps_directories; eauto.
Qed.

Section Listing.

Variables (a : App) (w : World).

Lemma get_sorted_files_loop_eq names : forall dirs files,
  get_sorted_files_loop (map (fun nm => current_dir a ++ [nm]) names)
                        dirs files (a, w)
  = (Ok (dirs ++ filter (child_is_dir (fs w) (current_dir a)) names,
         files ++ filter (fun nm =>
                            negb (child_is_dir (fs w) (current_dir a) nm))
                         names),
     (a, w)).
Proof.
  induction names as [|nm names IH]; intros dirs files; simpl.
  - now rewrite !app_nil_r.
  - unfold bind, self, fs_get, joinpath_abs. cbn [fst snd].
    rewrite name_child. fold (child_is_dir (fs w) (current_dir a) nm).
    destruct (child_is_dir (fs w) (current_dir a) nm); cbn [negb];
      rewrite IH, <- app_assoc; reflexivity.
Qed.

Lemma get_sorted_files_eq names :
  os_listdir (fs w) (current_dir a) = Ok names ->
  get_sorted_files (a, w)
  = (Ok (py_sort (filter (child_is_dir (fs w) (current_dir a)) names)
         ++ py_sort (filter (fun nm =>
                               negb (child_is_dir (fs w) (current_dir a) nm))
                            names)),
     (a, w)).
Proof.
  intros Hls. unfold get_sorted_files, bind, self, fs_try, iterdir.
  cbn [fst snd]. rewrite Hls. rewrite get_sorted_files_loop_eq. reflexivity.
Qed.

Lemma get_sorted_files_raises e :
  os_listdir (fs w) (current_dir a) = Raise e ->
  get_sorted_files (a, w) = (Raise e, (a, w)).
Proof.
  intros Hls. unfold get_sorted_files, bind, self, fs_try, iterdir.
  cbn [fst snd]. now rewrite Hls.
Qed.

Lemma get_sorted_files_inv files s' :
  get_sorted_files (a, w) = (Ok files, s') ->
  exists names,
    os_listdir (fs w) (current_dir a) = Ok names /\ Permutation files names.
Proof.
  destruct (os_listdir (fs w) (current_dir a)) as [names|e] eqn:Hls.
  - rewrite (get_sorted_files_eq _ Hls). intros [= <- _].
    exists names. split; [reflexivity|].
    rewrite !py_sort_perm. apply filter_partition_perm.
  - rewrite (get_sorted_files_raises _ Hls). discriminate.
Qed.

End Listing.

Lemma refresh_screen_eq a w : refresh_screen (a, w) = (Ok tt, refreshed a w).
Proof. reflexivity. Qed.

Lemma render_eq a w :
  render (a, w) =
  let s1 := refreshed a w in
  match get_sorted_files s1 with
  | (Ok files, s2) =>
      match _draw_file_list files s2 with
      | (Ok _, s3) =>
          match _show_selected_file_or_folder_contents files s3 with
          | (Ok _, s4) => (Ok files, s4)
          | (Raise e, s4) => (Raise e, s4)
          end
      | (Raise e, s3) => (Raise e, s3)
      end
  | (Raise e, s2) => (Raise e, s2)
  end.
Proof.
  unfold render, bind. rewrite refresh_screen_eq. cbv zeta.
  destruct (get_sorted_files (refreshed a w)) as [[files|e] s2]; [|reflexivity].
  destruct (_draw_file_list files s2) as [[u|e] s3]; [|reflexivity].
  destruct (_show_selected_file_or_folder_contents files s3) as [[u'|e] s4];
    reflexivity.
Qed.

(** An exception of the drawing ends [run]. *)
Lemma run_raises_with_render keys s e :
  fst (render s) = Raise e -> fst (run keys s) = Raise e.
Proof.
  intros H. destruct keys as [|key later]; cbn [run]; unfold bind at 1;
    destruct (render s) as [[files|e'] s']; cbn [fst] in *; congruence.
Qed.

Lemma draw_left_eq text ypos sel d a w :
  _draw_left text ypos sel d (a, w) =
  (Ok tt,
   (a, mkWorld (fs w) (maxyx w)
         (AttrSet 1 false
          :: (if ypos + 2 <? screen_height a
              then [AddStr (ypos + 2) 0 (py_slice_to (col_width a - 1) text)]
              else [])
          ++ AttrSet (if sel && d then 4 else if d then 3
                      else if sel then 2 else 1) d
          :: screen w)
         (typed w))).
Proof.
  unfold _draw_left, bind, self, scr.
  destruct sel, d; step; destruct (ypos + 2 <? screen_height a); reflexivity.
Qed.

Lemma draw_right_eq contents i a w :
  _draw_right contents i (a, w) =
  (Ok tt,
   (a, if (0 <=? i + 2) && (i + 2 <? screen_height a)
       then mkWorld (fs w) (maxyx w)
              (AddStr (i + 2) (col_width a + 1)
                      (py_slice_to (col_width a - 2) (replace_tabs contents))
               :: screen w) (typed w)
       else w)).
Proof.
  unfold _draw_right, bind, self, scr. step.
  destruct ((0 <=? i + 2) && (i + 2 <? screen_height a)); reflexivity.
Qed.

(** From four columns on, no truncation width is negative. *)
Lemma truncation_widths_wide a w :
  4 <= snd (maxyx w) ->
  let a' := fst (refreshed a w) in
  0 <= col_width a' - 2 /\ 0 <= col_width a' - 1 /\ 0 <= col_width a'.
Proof.
  intros H. simpl.
  assert (2 <= snd (maxyx w) / 2) by (apply Z.div_le_lower_bound; lia). lia.
Qed.

(** With no entries and the cursor at 0, moving is a no-op. *)
Lemma moves_in_empty_directory key a w :
  py_in key (up_keys ++ down_keys) = true ->
  cursor a = 0 ->
  process_key_press [] key (a, w) = (Ok tt, (a, w)).
Proof.
  intros Hk Hc. apply py_in_In, in_app_or in Hk.
  destruct Hk as [Hk | Hk]; apply py_in_In in Hk.
  - rewrite (press_up _ _ _ _ Hk), Hc. reflexivity.
  - rewrite (press_down _ _ _ _ Hk), Hc. reflexivity.
Qed.

(** * The claims *)

(** C1. Cursor bounds: for every list of entries and every cursor with
    [0 <= cursor < len(entries)], after any sequence of move-up and
    move-down keys handled by [process_key_press] the cursor is still within
    [0 <= cursor < len(entries)]; nothing is raised, and neither the
    current directory nor the world changes. *)
Theorem cursor_bounds_after_moves files keys : forall a w,
  Forall (fun key => py_in key (up_keys ++ down_keys) = true) keys ->
  0 <= cursor a < len files ->
  exists a',
    process_keys files keys (a, w) = (Ok tt, (a', w))
    /\ 0 <= cursor a' < len files
    /\ current_dir a' = current_dir a.
Proof.
  induction keys as [|key later IH]; intros a w Hkeys Hc.
  - exists a. repeat split; lia.
  - inversion Hkeys as [|? ? Hk Hlater]; subst.
    assert (Hstep : exists a1,
               process_key_press files key (a, w) = (Ok tt, (a1, w))
               /\ 0 <= cursor a1 < len files
               /\ current_dir a1 = current_dir a).
    { apply py_in_In, in_app_or in Hk. destruct Hk as [Hk | Hk];
        apply py_in_In in Hk.
      - rewrite (press_up _ _ _ _ Hk).
        destruct (cursor a >? 0) eqn:Hup; eexists; split; try reflexivity;
          simpl; split; try reflexivity; lia.
      - rewrite (press_down _ _ _ _ Hk).
        destruct (cursor a <? len files - 1) eqn:Hdn; eexists; split;
          try reflexivity; simpl; split; try reflexivity; lia. }
    destruct Hstep as (a1 & Hrun & Hc1 & Hd1).
    destruct (IH a1 w Hlater Hc1) as (a' & Hrest & Hc' & Hd').
    exists a'. split; [|split; [exact Hc' | congruence]].
    simpl. unfold bind. rewrite Hrun. exact Hrest.
Qed.

Lemma cursor_bounds_witness :
  let a := App_init ["home"] in
  let w := mkWorld home_fs (24, 80) [] [] in
  let files := ["b"; "docs"; "a"; "c"] in
  exists a',
    process_keys files
      [KEY_UP; KEY_DOWN; ord "j"; KEY_C2; KEY_DOWN; ord "k"; KEY_A2] (a, w)
    = (Ok tt, (a', w))
    /\ 0 <= cursor a' < len files
    /\ current_dir a' = current_dir a.
Proof.
  intros a w files. apply cursor_bounds_after_moves.
  - repeat constructor.
  - unfold len. simpl. lia.
Defined.

(** C2. Empty directory: the claim asks that with no entries the drawing
    skips the preview without an error.  The code does not: when the
    listing of the current directory is empty, [files[self.cursor]] in
    [_show_selected_file_or_folder_contents] raises [IndexError], which
    nothing catches, so the drawing and with it [run] end with it. *)
Theorem render_empty_directory_raises a w :
  os_listdir (fs w) (current_dir a) = Ok [] ->
  fst (render (a, w)) = Raise IndexError
  /\ forall keys, fst (run keys (a, w)) = Raise IndexError.
Proof.
  intros Hls.
  assert (Hr : fst (render (a, w)) = Raise IndexError).
  { assert (Hg : get_sorted_files (refreshed a w) = (Ok [], refreshed a w))
      by exact (get_sorted_files_eq (fst (refreshed a w)) (snd (refreshed a w))
                                    [] Hls).
    rewrite render_eq. cbv zeta. rewrite Hg.
    cbn [_draw_file_list for_enumerate ret].
    unfold _show_selected_file_or_folder_contents, bind, self, lift.
    now rewrite py_index_nil. }
  split; [exact Hr|]. intros keys. now apply run_raises_with_render.
Qed.

Lemma render_empty_directory_witness :
  let a := App_init ["home"; "b"] in
  let w := mkWorld home_fs (24, 80) [] [] in
  fst (render (a, w)) = Raise IndexError.
Proof.
  intros a w. apply (render_empty_directory_raises a w). reflexivity.
Defined.

(** C3. Sort invariant: when the children of the current directory have
    the distinct names [names], [get_sorted_files] returns the names of the
    directories among them in lexicographic order, followed by the names of
    the others in lexicographic order; the result is as long as [names] and
    has no name twice. *)
Theorem get_sorted_files_directories_first a w names :
  os_listdir (fs w) (current_dir a) = Ok names ->
  NoDup names ->
  exists dirs files,
    get_sorted_files (a, w) = (Ok (dirs ++ files), (a, w))
    /\ Permutation dirs (filter (child_is_dir (fs w) (current_dir a)) names)
    /\ Permutation files
         (filter (fun nm => negb (child_is_dir (fs w) (current_dir a) nm))
                 names)
    /\ StronglySorted str_le dirs
    /\ StronglySorted str_le files
    /\ List.length (dirs ++ files) = List.length names
    /\ NoDup (dirs ++ files).
Proof.
  intros Hls Hnd.
  eexists. eexists. split; [apply (get_sorted_files_eq _ _ _ Hls)|].
  assert (Hall : Permutation
            (py_sort (filter (child_is_dir (fs w) (current_dir a)) names)
             ++ py_sort (filter (fun nm =>
                                   negb (child_is_dir (fs w) (current_dir a)
                                                      nm))
                                names)) names).
  { rewrite !py_sort_perm. apply filter_partition_perm. }
  repeat split; try apply py_sort_perm; try apply py_sort_sorted.
  - now apply Permutation_length.
  - eapply Permutation_NoDup; [symmetry; exact Hall | exact Hnd].
Qed.

Lemma get_sorted_files_witness :
  let a := App_init ["home"] in
  let w := mkWorld home_fs (24, 80) [] [] in
  exists dirs files,
    get_sorted_files (a, w) = (Ok (dirs ++ files), (a, w))
    /\ Permutation dirs (filter (child_is_dir (fs w) (current_dir a))
                                ["c"; "a"; "b"; "docs"])
    /\ Permutation files
         (filter (fun nm => negb (child_is_dir (fs w) (current_dir a) nm))
                 ["c"; "a"; "b"; "docs"])
    /\ StronglySorted str_le dirs
    /\ StronglySorted str_le files
    /\ List.length (dirs ++ files) = List.length ["c"; "a"; "b"; "docs"]
    /\ NoDup (dirs ++ files).
Proof.
  intros a w.
  apply (get_sorted_files_directories_first a w ["c"; "a"; "b"; "docs"]).
  - reflexivity.
  - repeat constructor; simpl; intuition discriminate.
Defined.

(** C4. Delete shrinks the list: the claim asks that after a successful
    delete the cursor is brought back into the list before its next use.
    The code does not: deleting never changes the cursor, and with entries
    [a], [b], [c], the cursor on [c] and [c] deleted, the next iteration
    lists [a], [b] and indexes them with the cursor still 2, which raises
    [IndexError] and ends [run]. *)
Theorem delete_leaves_cursor_unclamped :
  (forall files a w,
      exists w', process_key_press files (ord "x") (a, w) = (Ok tt, (a, w')))
  /\ (let a := with_cursor 2 (App_init ["home"]) in
      let w := mkWorld abc_fs (24, 80) [] [] in
      exists w',
        fst (get_sorted_files (a, w)) = Ok ["a"; "b"; "c"]
        /\ process_key_press ["a"; "b"; "c"] (ord "x") (a, w) = (Ok tt, (a, w'))
        /\ fst (get_sorted_files (a, w')) = Ok ["a"; "b"]
        /\ cursor a = 2
        /\ fst (render (a, w')) = Raise IndexError
        /\ fst (run [ord "x"] (a, w)) = Raise IndexError).
Proof.
  split.
  - intros files a w. rewrite press_x, try_remove_file_eq. eauto.
  - eexists. repeat split; try reflexivity.
Qed.

(** C5. Truncation safety: the claim asks that the truncation widths are
    never negative.  The code does not clamp them: on a terminal one column
    wide the entries are cut with [text[:-1]], on one three columns wide the
    preview lines are, and such a slice drops the last character instead of
    fitting the text to the column. *)
Theorem truncation_width_goes_negative :
  (forall a w, snd (maxyx w) = 1 ->
               col_width (fst (refreshed a w)) - 1 = -1)
  /\ (forall a w, snd (maxyx w) = 3 ->
                  col_width (fst (refreshed a w)) - 2 = -1)
  /\ py_slice_to (-1) "hello" = "hell"
  /\ (let a := App_init ["home"] in
      let w := mkWorld home_fs (24, 1) [] [] in
      let s := refreshed a w in
      screen (snd (snd (_draw_left "hello" 0 false false s)))
      = AttrSet 1 false :: AddStr 2 0 "hell" :: AttrSet 1 false
        :: screen (snd s))
  /\ (let a := App_init ["home"] in
      let w := mkWorld home_fs (24, 3) [] [] in
      let s := refreshed a w in
      screen (snd (snd (_draw_right "hello" 0 s)))
      = AddStr 2 2 "hell" :: screen (snd s)).
Proof.
  repeat split.
  - intros a w H. simpl. now rewrite H.
  - intros a w H. simpl. now rewrite H.
Qed.

(** C6. Round trip: in a state whose entries are those of the current
    directory (of a well-formed file system) and whose selected entry is a
    directory, "enter selected" followed by "go to parent" leads back to
    the original current directory, with the cursor at 0. *)
Theorem enter_then_parent files files' item kr kl a w :
  wf_node (fs w) = true ->
  fst (get_sorted_files (a, w)) = Ok files ->
  py_index files (cursor a) = Ok item ->
  is_dir (fs w) (joinpath (current_dir a) item) = true ->
  py_in kr enter_keys = true ->
  py_in kl parent_keys = true ->
  exists a1 a2,
    process_key_press files kr (a, w) = (Ok tt, (a1, w))
    /\ current_dir a1 = current_dir a ++ [item]
    /\ cursor a1 = 0
    /\ process_key_press files' kl (a1, w) = (Ok tt, (a2, w))
    /\ current_dir a2 = current_dir a
    /\ cursor a2 = 0.
Proof.
  intros Hwf Hfiles Hitem Hdir Hkr Hkl.
  destruct (get_sorted_files (a, w)) as [r s'] eqn:Hg. simpl in Hfiles. subst r.
  apply get_sorted_files_inv in Hg as (names & Hls & Hperm).
  destruct (wf_listing _ _ _ Hwf Hls) as [Hvalid _].
  assert (Hv : valid_name item = true).
  { rewrite Forall_forall in Hvalid. apply Hvalid.
    eapply Permutation_in; [exact Hperm | eapply py_index_In; eauto]. }
  rewrite (joinpath_valid _ _ Hv) in Hdir.
  rewrite (press_enter _ _ _ Hkr), try_enter_directory_eq, Hitem.
  rewrite (joinpath_valid _ _ Hv), Hdir.
  eexists. eexists. split; [reflexivity|].
  rewrite (press_parent _ _ _ _ Hkl).
  cbn [current_dir cursor with_cursor with_current_dir].
  rewrite parent_child. repeat split.
Qed.

Lemma enter_then_parent_witness :
  let a := with_cursor 1 (App_init ["home"]) in
  let w := mkWorld home_fs (24, 80) [] [] in
  exists a1 a2,
    process_key_press ["b"; "docs"; "a"; "c"] (ord "l") (a, w)
    = (Ok tt, (a1, w))
    /\ current_dir a1 = current_dir a ++ ["docs"]
    /\ cursor a1 = 0
    /\ process_key_press ["in"] KEY_LEFT (a1, w) = (Ok tt, (a2, w))
    /\ current_dir a2 = current_dir a
    /\ cursor a2 = 0.
Proof.
  intros a w.
  apply (enter_then_parent ["b"; "docs"; "a"; "c"] ["in"] "docs"
                           (ord "l") KEY_LEFT a w); reflexivity.
Defined.

(** C7. Parent of the root: "go to parent" never raises, sets the current
    directory to its parent and the cursor to 0; the parent of the root is
    the root, so from the root the current directory stays the root, and
    going to the parent again and again gives the state one such step
    gives. *)
Theorem parent_of_root_is_root files key later a w :
  Forall (fun k => py_in k parent_keys = true) (key :: later) ->
  (exists a',
     process_key_press files key (a, w) = (Ok tt, (a', w))
     /\ current_dir a' = parent (current_dir a)
     /\ cursor a' = 0)
  /\ parent [] = ([] : Path)
  /\ (current_dir a = [] ->
      process_key_press files key (a, w) = (Ok tt, (with_cursor 0 a, w))
      /\ process_keys files (key :: later) (a, w)
         = process_key_press files key (a, w)).
Proof.
  intros Hkeys. inversion Hkeys as [|? ? Hk Hlater]; subst.
  split; [|split; [reflexivity|]].
  - rewrite (press_parent _ _ _ _ Hk). eexists. repeat split.
  - intros Hroot. split; [now apply press_parent_root|].
    simpl. unfold bind. rewrite (press_parent_root _ _ _ _ Hk Hroot).
    now apply press_parent_root_again.
Qed.

Lemma parent_of_root_witness :
  let a := App_init [] in
  let w := mkWorld (Dir [("etc", Dir [])]) (24, 80) [] [] in
  process_keys ["etc"] [KEY_LEFT; ord "h"; KEY_B1] (a, w)
  = process_key_press ["etc"] KEY_LEFT (a, w).
Proof.
  intros a w.
  apply (parent_of_root_is_root ["etc"] KEY_LEFT [ord "h"; KEY_B1] a w).
  - repeat constructor.
  - reflexivity.
Defined.

(** C8. Failed mutations: when the [os] call behind the delete, rename or
    create-directory key raises, the exception is caught where the call is
    made: the key press returns, and the object (current directory and
    cursor) and the file system are as they were.  The delete key asks
    nothing and returns whatever is selected.  The other two keys first
    ask for a name, before their [try]; once the prompt has returned one,
    they return too, and a failed call leaves the state the prompt left.
    A cursor outside the list is swallowed in the same way. *)
Theorem mutation_failure_is_swallowed files key a w :
  py_in key mutation_keys = true ->
  (key = ord "x" ->
   exists w',
     process_key_press files key (a, w) = (Ok tt, (a, w'))
     /\ (forall e, py_index files (cursor a) = Raise e -> w' = w)
     /\ (forall item e,
           py_index files (cursor a) = Ok item ->
           os_remove (fs w) (joinpath (current_dir a) item) = Raise e ->
           w' = w))
  /\ (forall new_name s1,
        key = ord "a" ->
        _ask_user_input "Enter new name: " (a, w) = (Ok new_name, s1) ->
        exists w',
          process_key_press files key (a, w) = (Ok tt, (a, w'))
          /\ (forall e, py_index files (cursor a) = Raise e ->
                        (a, w') = s1 /\ fs w' = fs w)
          /\ (forall item e,
                py_index files (cursor a) = Ok item ->
                os_rename (fs (snd s1)) (joinpath (current_dir a) item)
                          (joinpath (current_dir a) new_name) = Raise e ->
                (a, w') = s1 /\ fs w' = fs w))
  /\ (forall new_dir s1,
        key = KEY_F7 ->
        _ask_user_input "Enter directory name: " (a, w) = (Ok new_dir, s1) ->
        exists w',
          process_key_press files key (a, w) = (Ok tt, (a, w'))
          /\ (forall e,
                os_mkdir (fs (snd s1)) (joinpath (current_dir a) new_dir)
                = Raise e ->
                (a, w') = s1 /\ fs w' = fs w)).
Proof.
  intros Hk. split; [|split].
  - intros ->. rewrite press_x, try_remove_file_eq.
    eexists. split; [reflexivity|]. split.
    + intros e Hitem. now rewrite Hitem.
    + intros item e Hitem Hrm. now rewrite Hitem, Hrm.
  - intros new_name s1 -> Hask.
    apply ask_user_input_inv in Hask as [Hdec ->].
    rewrite press_a, try_rename_file_eq, Hdec.
    eexists. split; [reflexivity|]. cbv zeta. cbn [snd]. split.
    + intros e Hitem. now rewrite Hitem.
    + intros item e Hitem Hrn.
      change (fs (after_prompt "Enter new name: " a w)) with (fs w) in Hrn.
      now rewrite Hitem, Hrn.
  - intros new_dir s1 -> Hask.
    apply ask_user_input_inv in Hask as [Hdec ->].
    rewrite press_F7, try_create_directory_eq, Hdec.
    eexists. split; [reflexivity|]. cbv zeta. cbn [snd].
    intros e Hmk.
    change (fs (after_prompt "Enter directory name: " a w)) with (fs w)
      in Hmk.
    now rewrite Hmk.
Qed.

(** Renaming the file [a] to the name of the directory [b]. *)
Lemma mutation_failure_witness :
  let a := with_cursor 1 (App_init ["home"]) in
  let w := mkWorld home_fs (24, 80) [] ["b"] in
  exists w',
    process_key_press ["b"; "a"] (ord "a") (a, w) = (Ok tt, (a, w'))
    /\ w' = after_prompt "Enter new name: " a w
    /\ fs w' = fs w.
Proof.
  intros a w.
  destruct (mutation_failure_is_swallowed ["b"; "a"] (ord "a") a w)
    as (_ & Hrename & _); [reflexivity|].
  destruct (Hrename "b" (a, after_prompt "Enter new name: " a w)
                    eq_refl eq_refl) as (w' & Hrun & _ & Hfail).
  exists w'. split; [exact Hrun|].
  destruct (Hfail "a" IsADirectoryError eq_refl eq_refl) as [Hs Hfs].
  split; [now injection Hs | exact Hfs].
Defined.

(** C9. Unbound keys: for every key that is none of the bound ones (the
    keys for up, down, parent, enter, delete, rename, create directory and
    quit) [process_key_press] returns with the object and the world, the
    file system included, exactly as they were. *)
Theorem unbound_key_changes_nothing files key s :
  py_in key bound_keys = false ->
  process_key_press files key s = (Ok tt, s).
Proof.
  intros Hk. destruct s as [a w].
  unfold py_in, bound_keys, up_keys, down_keys, parent_keys, enter_keys,
    mutation_keys in Hk.
  cbn [app existsb] in Hk. repeat (apply orb_false_elim in Hk as [? Hk]).
  unfold process_key_press, bind, self, py_in. cbn [existsb fst].
  repeat match goal with H : (_ =? _) = false |- _ => rewrite H; clear H end.
  reflexivity.
Qed.

Lemma unbound_key_witness :
  py_in (ord "z") bound_keys = false
  /\ process_key_press ["a"] (ord "z")
       (App_init ["home"], mkWorld home_fs (24, 80) [] [])
     = (Ok tt, (App_init ["home"], mkWorld home_fs (24, 80) [] [])).
Proof.
  split; [reflexivity|].
  apply (unbound_key_changes_nothing ["a"] (ord "z")). reflexivity.
Defined.

(** C10. Deleting a directory: when the selected entry is a directory,
    [os.remove] raises, the exception is swallowed, and the object and the
    world, the file system included, are exactly as they were. *)
Theorem delete_refuses_directory files a w item :
  py_index files (cursor a) = Ok item ->
  is_dir (fs w) (joinpath (current_dir a) item) = true ->
  os_remove (fs w) (joinpath (current_dir a) item) = Raise IsADirectoryError
  /\ process_key_press files (ord "x") (a, w) = (Ok tt, (a, w)).
Proof.
  intros Hitem Hdir. pose proof (os_remove_directory _ _ Hdir) as Hrm.
  split; [exact Hrm|].
  now rewrite press_x, try_remove_file_eq, Hitem, Hrm.
Qed.

Lemma delete_refuses_directory_witness :
  let a := App_init ["home"] in
  let w := mkWorld home_fs (24, 80) [] [] in
  os_remove (fs w) (joinpath (current_dir a) "b") = Raise IsADirectoryError
  /\ process_key_press ["b"; "docs"; "a"; "c"] (ord "x") (a, w)
     = (Ok tt, (a, w)).
Proof.
  intros a w.
  apply (delete_refuses_directory ["b"; "docs"; "a"; "c"] a w "b");
    reflexivity.
Defined.

(** * Further properties *)

Lemma add_calls_nil w : add_calls [] w = w.
Proof. destruct w; reflexivity. Qed.

Lemma add_calls_app l2 l1 w :
  add_calls l2 (add_calls l1 w) = add_calls (l2 ++ l1) w.
Proof. unfold add_calls. simpl. now rewrite app_assoc. Qed.

Section OnlyDraws.

Variables (a : App) (P : call -> Prop).

Lemma only_draws_pure {A : Type} (Q : result A -> Prop)
      (f : State -> result A) :
  (forall w, Q (f (a, w))) ->
  only_draws a P Q (fun s => (f s, s)).
Proof.
  intros HQ w. exists (f (a, w)), []. rewrite add_calls_nil. auto.
Qed.

Lemma only_draws_scr c : P c -> only_draws a P returns (scr c).
Proof.
  intros Hc w. exists (Ok tt), [c]. repeat split; auto.
Qed.

Lemma only_draws_bind {A B : Type} (QA : result A -> Prop)
      (QB : result B -> Prop) (m : M A) (k : A -> M B) :
  only_draws a P QA m ->
  (forall x, QA (Ok x) -> only_draws a P QB (k x)) ->
  (forall e, QA (Raise e) -> QB (Raise e)) ->
  only_draws a P QB (bind m k).
Proof.
  intros Hm Hk He w. destruct (Hm w) as (r & l1 & Hrun & Hr & Hl1).
  unfold bind. rewrite Hrun. destruct r as [x|e].
  - destruct (Hk x Hr (add_calls l1 w)) as (r2 & l2 & Hrun2 & Hr2 & Hl2).
    exists r2, (l2 ++ l1). rewrite Hrun2, add_calls_app.
    repeat split; auto. apply Forall_app; auto.
  - exists (Raise e), l1. auto.
Qed.

(** As [only_draws_bind], for a first part that reads the object. *)
Lemma only_draws_self {B : Type} (QB : result B -> Prop) (k : App -> M B) :
  only_draws a P QB (k a) -> only_draws a P QB (bind self k).
Proof.
  intros Hk w. unfold bind, self. cbn [fst]. apply Hk.
Qed.

Lemma only_draws_weaken {A : Type} (Q Q' : result A -> Prop) (m : M A) :
  (forall r, Q r -> Q' r) -> only_draws a P Q m -> only_draws a P Q' m.
Proof.
  intros HQ Hm w. destruct (Hm w) as (r & l & Hrun & Hr & Hl). eauto 6.
Qed.

Lemma only_draws_for_enumerate {A : Type} (l : list A)
      (body : Z -> A -> M unit) : forall start,
  (forall i x, start <= i -> In x l -> only_draws a P returns (body i x)) ->
  only_draws a P returns (for_enumerate start l body).
Proof.
  induction l as [|x l IH]; intros start Hbody; simpl.
  - apply (only_draws_pure returns (fun _ => Ok tt)). intros; exact I.
  - eapply only_draws_bind.
    + apply Hbody; [lia | now left].
    + intros _ _. apply IH. intros i y Hi Hy. apply Hbody; [lia | now right].
    + intros e [].
Qed.

End OnlyDraws.

Lemma slice_stop_nonneg stop s : 0 <= stop -> slice_stop stop s <= stop.
Proof. unfold slice_stop. intros H. destruct (stop <? 0) eqn:E; lia. Qed.

Lemma py_slice_to_fits stop s :
  0 <= stop -> str_len (py_slice_to stop s) <= stop.
Proof.
  intros H. rewrite (proj1 (py_slice_to_length stop s)).
  now apply slice_stop_nonneg.
Qed.

Lemma only_draws_draw_left a P text ypos sel d :
  (forall p b, P (AttrSet p b)) ->
  (ypos + 2 < screen_height a ->
   P (AddStr (ypos + 2) 0 (py_slice_to (col_width a - 1) text))) ->
  only_draws a P returns (_draw_left text ypos sel d).
Proof.
  intros Hattr Hstr w. rewrite draw_left_eq.
  exists (Ok tt).
  exists (AttrSet 1 false
          :: (if ypos + 2 <? screen_height a
              then [AddStr (ypos + 2) 0 (py_slice_to (col_width a - 1) text)]
              else [])
          ++ [AttrSet (if sel && d then 4 else if d then 3
                       else if sel then 2 else 1) d]).
  split; [unfold add_calls; cbn [app]; now rewrite <- app_assoc|].
  split; [exact I|].
  constructor; [apply Hattr|]. apply Forall_app. split.
  - destruct (ypos + 2 <? screen_height a) eqn:E; constructor; [|constructor].
    apply Hstr. lia.
  - constructor; [apply Hattr | constructor].
Qed.

Lemma only_draws_draw_right a P contents i :
  (0 <= i + 2 < screen_height a ->
   P (AddStr (i + 2) (col_width a + 1)
             (py_slice_to (col_width a - 2) (replace_tabs contents)))) ->
  only_draws a P returns (_draw_right contents i).
Proof.
  intros Hstr w. rewrite draw_right_eq.
  destruct ((0 <=? i + 2) && (i + 2 <? screen_height a)) eqn:E.
  - exists (Ok tt). eexists [_]. split; [reflexivity|]. split; [exact I|].
    constructor; [|constructor]. apply Hstr. lia.
  - exists (Ok tt), []. rewrite add_calls_nil. repeat split. constructor.
Qed.

Lemma only_draws_draw_file_list a P files :
  (forall p b, P (AttrSet p b)) ->
  (forall i f, 0 <= i -> i + 2 < screen_height a -> In f files ->
               P (AddStr (i + 2) 0 (py_slice_to (col_width a - 1) f))) ->
  only_draws a P returns (_draw_file_list files).
Proof.
  intros Hattr Hstr. unfold _draw_file_list. apply only_draws_for_enumerate.
  intros i x Hi Hx. apply only_draws_self.
  eapply only_draws_bind with (QA := returns).
  - apply (only_draws_pure a _ returns
             (fun s => Ok (is_dir (fs (snd s))
                                  (joinpath (current_dir a) x)))).
    intros; exact I.
  - intros d _. apply only_draws_draw_left; auto.
  - intros e [].
Qed.

(** X1. Drawing the list of entries changes nothing but the screen, and
    every call it makes there is a change of attribute or a text that
    starts in column 0 on a row from 2 to [screen_height - 1] (entries
    further down are not drawn); when the column is at least one wide the
    text has at most [col_width - 1] characters. *)
Theorem draw_file_list_stays_in_left_pane a files w :
  exists r added,
    _draw_file_list files (a, w) = (r, (a, add_calls added w))
    /\ Forall (in_left_pane a) added.
Proof.
  destruct (only_draws_draw_file_list a (in_left_pane a) files)
    with (w := w) as (r & added & Hrun & Hr & Hadded).
  - intros; exact I.
  - intros i f Hi Hrow _. simpl. repeat split; try lia.
    intros Hcw. apply py_slice_to_fits. lia.
  - eauto.
Qed.

Lemma canon_raises root p : forall acc e,
  canon root acc p = Raise e ->
  e = NotADirectoryError \/ e = FileNotFoundError.
Proof.
  induction p as [|c p' IH]; intros acc e; simpl; [discriminate|].
  destruct (lookup acc root) as [[t|ch]|].
  - intros [= <-]. auto.
  - destruct (String.eqb c ".."); apply IH.
  - intros [= <-]. auto.
Qed.

Lemma os_stat_raises root p e :
  os_stat root p = Raise e ->
  e = NotADirectoryError \/ e = FileNotFoundError.
Proof.
  unfold os_stat. destruct (canon root [] p) as [cp|e'] eqn:Hc.
  - destruct (lookup cp root); [discriminate|]. intros [= <-]. auto.
  - intros [= <-]. eapply canon_raises; eauto.
Qed.


(** [_get_file_or_folder_contents] returns, with the state as it was. *)
Lemma get_contents_returns item a w :
  exists lines, _get_file_or_folder_contents item (a, w) = (Ok lines, (a, w)).
Proof.
  unfold _get_file_or_folder_contents, bind, self, try_except, fs_try,
    read_text, os_listdir.
  cbn [fst snd].
  destruct (os_stat (fs w) (joinpath (current_dir a) item))
    as [[cp [t|ch]]|e] eqn:Hs.
  - eexists. reflexivity.
  - cbn. rewrite Hs. eexists. reflexivity.
  - destruct (os_stat_raises _ _ _ Hs) as [-> | ->]; eexists; reflexivity.
Qed.


(** X20. The preview of a text file is its text, with the line ends as
    text mode reads them, split at the line breaks. *)
Theorem preview_of_a_file item cp t a w :
  os_stat (fs w) (joinpath (current_dir a) item) = Ok (cp, File t) ->
  _get_file_or_folder_contents item (a, w)
  = (Ok (str_split NL (universal_newlines t)), (a, w)).
Proof.
  intros Hs.
  unfold _get_file_or_folder_contents, bind, self, try_except, fs_try,
    read_text.
  cbn [fst snd]. now rewrite Hs.
Qed.

Lemma preview_of_a_file_witness :
  let a := App_init ["home"] in
  let w := mkWorld (Dir [("home", Dir [("notes", File dos_text)])])
                   (24, 80) [] [] in
  _get_file_or_folder_contents "notes" (a, w) = (Ok ["one"; "two"; ""], (a, w)).
Proof.
  intros a w. apply (preview_of_a_file "notes" ["home"; "notes"] dos_text a w).
  reflexivity.
Defined.

Lemma py_index_defined {A : Type} (l : list A) i :
  index_in_range l i = true -> exists x, py_index l i = Ok x.
Proof.
  unfold index_in_range, py_index, len. intros H.
  apply andb_true_iff in H as [H1 H2].
  set (j := if i <? 0 then i + Z.of_nat (List.length l) else i).
  assert (Hj : 0 <= j < Z.of_nat (List.length l))
    by (subst j; destruct (i <? 0) eqn:E; lia).
  replace ((0 <=? j) && (j <? Z.of_nat (List.length l))) with true
    by (symmetry; apply andb_true_iff; split; lia).
  destruct (nth_error l (Z.to_nat j)) eqn:Hn; [eauto|].
  apply nth_error_None in Hn. lia.
Qed.

Lemma py_index_undefined {A : Type} (l : list A) i :
  index_in_range l i = false -> py_index l i = Raise IndexError.
Proof.
  unfold index_in_range, py_index, len. intros H.
  apply andb_false_iff in H.
  set (j := if i <? 0 then i + Z.of_nat (List.length l) else i).
  assert (Hj : ~ (0 <= j < Z.of_nat (List.length l)))
    by (subst j; destruct (i <? 0) eqn:E; lia).
  destruct ((0 <=? j) && (j <? Z.of_nat (List.length l))) eqn:E;
    [|reflexivity].
  apply andb_true_iff in E. lia.
Qed.

Lemma only_draws_show_selected a P files :
  (forall i line, 0 <= i -> i + 2 < screen_height a ->
     P (AddStr (i + 2) (col_width a + 1)
               (py_slice_to (col_width a - 2) (replace_tabs line)))) ->
  only_draws a P
    (fun r => r = if index_in_range files (cursor a)
                  then Ok tt else Raise IndexError)
    (_show_selected_file_or_folder_contents files).
Proof.
  intros Hstr.
  unfold _show_selected_file_or_folder_contents. apply only_draws_self.
  destruct (index_in_range files (cursor a)) eqn:Hin.
  - destruct (py_index_defined _ _ Hin) as [item Hitem]. rewrite Hitem.
    eapply only_draws_bind with (QA := returns).
    + apply (only_draws_pure a _ returns (fun _ => Ok item)). intros; exact I.
    + intros item' _.
      eapply only_draws_bind with (QA := returns).
      * intros w. destruct (get_contents_returns item' a w) as [lines Hrun].
        exists (Ok lines), []. rewrite add_calls_nil.
        split; [exact Hrun|]. split; [exact I | constructor].
      * intros lines _.
        eapply only_draws_weaken;
          [|apply only_draws_for_enumerate with (start := 0)].
        -- intros [[]|e] Hr; [reflexivity | destruct Hr].
        -- intros i line Hi _. apply only_draws_draw_right.
           intros Hrow. apply Hstr; lia.
      * intros e [].
    + intros e [].
  - rewrite (py_index_undefined _ _ Hin).
    intros w. exists (Raise IndexError), []. rewrite add_calls_nil.
    repeat split. constructor.
Qed.

(** X2. Drawing the preview changes nothing but the screen, and every
    call it makes there is a text that starts in column [col_width + 1] on
    a row from 2 to [screen_height - 1] and, when the column is at least
    two wide, has at most [col_width - 2] characters.  When
    [files[self.cursor]] is not defined it raises [IndexError] without
    having drawn anything, and it raises [IndexError] in no other case. *)
Theorem show_selected_stays_in_right_pane a files w :
  exists r added,
    _show_selected_file_or_folder_contents files (a, w)
    = (r, (a, add_calls added w))
    /\ Forall (in_right_pane a) added
    /\ (index_in_range files (cursor a) = false ->
        r = Raise IndexError /\ added = [])
    /\ (r = Raise IndexError -> index_in_range files (cursor a) = false).
Proof.
  destruct (index_in_range files (cursor a)) eqn:Hin.
  - destruct (only_draws_show_selected a (in_right_pane a) files)
      with (w := w) as (r & added & Hrun & Hr & Hadded).
    + intros i line Hi Hrow. simpl. repeat split; try lia.
      intros Hcw. apply py_slice_to_fits. lia.
    + rewrite Hin in Hr. subst r. exists (Ok tt), added.
      repeat split; auto; discriminate.
  - exists (Raise IndexError), []. rewrite add_calls_nil.
    unfold _show_selected_file_or_folder_contents, bind, self, lift.
    cbn [fst]. rewrite (py_index_undefined _ _ Hin). repeat split; auto.
Qed.

Lemma sorted_entries_length root cur names :
  len (sorted_entries root cur names) = len names.
Proof.
  unfold len. f_equal. apply Permutation_length. unfold sorted_entries.
  rewrite !py_sort_perm. apply filter_partition_perm.
Qed.

Lemma render_only_draws a w (P : call -> Prop) :
  let a1 := fst (refreshed a w) in
  (forall c, drawn_by_refresh a1 c -> P c) ->
  (forall p b, P (AttrSet p b)) ->
  (forall i f, 0 <= i -> i + 2 < screen_height a1 ->
     P (AddStr (i + 2) 0 (py_slice_to (col_width a1 - 1) f))) ->
  (forall i line, 0 <= i -> i + 2 < screen_height a1 ->
     P (AddStr (i + 2) (col_width a1 + 1)
               (py_slice_to (col_width a1 - 2) (replace_tabs line)))) ->
  exists added,
    render (a, w) = (render_result a w, (a1, add_calls added w))
    /\ Forall P added.
Proof.
  intros a1 Hhead Hattr Hleft Hright.
  rewrite render_eq. cbv zeta. unfold render_result.
  set (w1 := snd (refreshed a w)).
  assert (Hs1 : refreshed a w = (a1, w1)) by reflexivity.
  assert (Hw1 : exists l1, w1 = add_calls l1 w /\ Forall P l1).
  { eexists [_; _; _; _]. split; [reflexivity|].
    repeat constructor; apply Hhead; unfold drawn_by_refresh; auto. }
  destruct Hw1 as (l1 & Hw1 & Hl1). rewrite Hs1.
  change (os_listdir (fs w) (current_dir a))
    with (os_listdir (fs w1) (current_dir a1)).
  change (sorted_entries (fs w) (current_dir a))
    with (sorted_entries (fs w1) (current_dir a1)).
  change (cursor a) with (cursor a1).
  destruct (os_listdir (fs w1) (current_dir a1)) as [names|e] eqn:Hls.
  - rewrite (get_sorted_files_eq _ _ _ Hls).
    fold (sorted_entries (fs w1) (current_dir a1) names).
    set (files := sorted_entries (fs w1) (current_dir a1) names).
    destruct (only_draws_draw_file_list a1 P files)
      with (w := w1) as (r2 & l2 & Hrun2 & Hr2 & Hl2); [auto | auto |].
    rewrite Hrun2. destruct r2 as [[]|e]; [|destruct Hr2].
    destruct (only_draws_show_selected a1 P files)
      with (w := add_calls l2 w1) as (r3 & l3 & Hrun3 & Hr3 & Hl3); [auto|].
    rewrite Hrun3, Hr3, Hw1, !add_calls_app.
    exists ((l3 ++ l2) ++ l1). split; [|rewrite !Forall_app; auto].
    destruct (index_in_range files (cursor a1)); reflexivity.
  - rewrite (get_sorted_files_raises _ _ _ Hls), Hw1. eauto.
Qed.

(** One drawing of the screen: its result, and what it leaves. *)
Lemma render_step a w :
  exists added,
    render (a, w)
    = (render_result a w, (fst (refreshed a w), add_calls added w)).
Proof.
  destruct (render_only_draws a w (fun _ => True)) as (added & Hrun & _);
    try easy.
  exists added. exact Hrun.
Qed.




Lemma press_unhandled files key s :
  py_in key (up_keys ++ down_keys ++ parent_keys ++ enter_keys
             ++ mutation_keys) = false ->
  process_key_press files key s = (Ok tt, s).
Proof.
  intros Hk. destruct s as [a w].
  unfold py_in, up_keys, down_keys, parent_keys, enter_keys,
    mutation_keys in Hk.
  cbn [app existsb] in Hk. repeat (apply orb_false_elim in Hk as [? Hk]).
  unfold process_key_press, bind, self, py_in. cbn [existsb fst].
  repeat match goal with H : (_ =? _) = false |- _ => rewrite H; clear H end.
  reflexivity.
Qed.

Lemma py_in_app key l1 l2 : py_in key (l1 ++ l2) = py_in key l1 || py_in key l2.
Proof. unfold py_in. apply existsb_app. Qed.

(** A key that is not a mutation key leaves the world as it is. *)
Lemma press_keeps_world files key a w :
  py_in key mutation_keys = false ->
  exists a', process_key_press files key (a, w) = (Ok tt, (a', w)).
Proof.
  intros Hm.
  destruct (py_in key up_keys) eqn:Hu; [rewrite (press_up _ _ _ _ Hu); eauto|].
  destruct (py_in key down_keys) eqn:Hd;
    [rewrite (press_down _ _ _ _ Hd); eauto|].
  destruct (py_in key parent_keys) eqn:Hp;
    [rewrite (press_parent _ _ _ _ Hp); eauto|].
  destruct (py_in key enter_keys) eqn:He;
    [rewrite (press_enter _ _ _ He), try_enter_directory_eq; eauto|].
  rewrite press_unhandled; [eauto|].
  now rewrite !py_in_app, Hu, Hd, Hp, He, Hm.
Qed.

(** X6. Whatever keys are pressed, as long as none of them is the delete,
    rename or create-directory key, [run] leaves the file system and the
    pending prompt input as they were, whether it returns or raises. *)
Theorem browsing_is_read_only keys : forall a w,
  Forall (fun key => py_in key mutation_keys = false) keys ->
  fs (snd (snd (run keys (a, w)))) = fs w
  /\ typed (snd (snd (run keys (a, w)))) = typed w.
Proof.
  induction keys as [|key later IH]; intros a w Hkeys;
    destruct (render_step a w) as [added Hr];
    remember (run _ (a, w)) as out eqn:Hout;
    cbn [run] in Hout; unfold bind at 1 in Hout; rewrite Hr in Hout;
    destruct (render_result a w) as [files|e]; try (subst out; now split).
  apply Forall_cons_iff in Hkeys as [Hk Hlater].
  destruct (key =? ord "q"); [subst out; now split|].
  destruct (press_keeps_world files key (fst (refreshed a w))
                              (add_calls added w) Hk) as [a' Hp].
  unfold bind in Hout. rewrite Hp in Hout. subst out.
  destruct (IH a' (add_calls added w) Hlater) as [Hfs Hty].
  rewrite Hfs, Hty. split; reflexivity.
Qed.

Lemma browsing_is_read_only_witness :
  let a := App_init ["home"] in
  let w := mkWorld home_fs (24, 80) [] ["n"] in
  fs (snd (snd (run [KEY_DOWN; ord "l"; ord "h"; ord "z"; ord "q"] (a, w))))
  = fs w.
Proof.
  intros a w.
  apply (browsing_is_read_only [KEY_DOWN; ord "l"; ord "h"; ord "z"; ord "q"]
                               a w).
  repeat constructor.
Defined.

Lemma move_key_not_quit key :
  py_in key (up_keys ++ down_keys) = true -> (key =? ord "q") = false.
Proof. intros Hk. key_cases Hk; reflexivity. Qed.

(** X7. In a directory that can be listed, with the cursor on one of its
    entries, no sequence of move-up and move-down keys leads [run] to the
    [IndexError] of the preview: however far [run] gets, it does not end
    with [IndexError], the cursor is still on an entry, and the current
    directory and the file system are unchanged. *)
Theorem moving_keeps_the_cursor_on_an_entry keys names : forall a w,
  os_listdir (fs w) (current_dir a) = Ok names ->
  0 <= cursor a < len names ->
  Forall (fun key => py_in key (up_keys ++ down_keys) = true) keys ->
  fst (run keys (a, w)) <> Raise IndexError
  /\ 0 <= cursor (fst (snd (run keys (a, w)))) < len names
  /\ current_dir (fst (snd (run keys (a, w)))) = current_dir a
  /\ fs (snd (snd (run keys (a, w)))) = fs w.
Proof.
  induction keys as [|key later IH]; intros a w Hls Hc Hkeys;
    destruct (render_step a w) as [added Hr];
    remember (run _ (a, w)) as out eqn:Hout;
    cbn [run] in Hout; unfold bind at 1 in Hout; rewrite Hr in Hout;
    unfold render_result in Hout; rewrite Hls in Hout; cbv zeta in Hout;
    set (files := sorted_entries (fs w) (current_dir a) names) in *;
    assert (Hlen : len files = len names) by apply sorted_entries_length;
    replace (index_in_range files (cursor a)) with true in Hout
      by (symmetry; unfold index_in_range; apply andb_true_iff; split; lia).
  - subst out. simpl. repeat split; try lia. discriminate.
  - apply Forall_cons_iff in Hkeys as [Hk Hlater].
    rewrite (move_key_not_quit _ Hk) in Hout.
    set (a1 := fst (refreshed a w)) in *. set (w1 := add_calls added w) in *.
    assert (Hstep : exists a2,
               process_key_press files key (a1, w1) = (Ok tt, (a2, w1))
               /\ 0 <= cursor a2 < len names
               /\ current_dir a2 = current_dir a).
    { apply py_in_In, in_app_or in Hk. destruct Hk as [Hk | Hk];
        apply py_in_In in Hk.
      - rewrite (press_up _ _ _ _ Hk). change (cursor a1) with (cursor a).
        destruct (cursor a >? 0) eqn:Hup; eexists; split; try reflexivity;
          simpl; split; try reflexivity; lia.
      - rewrite (press_down _ _ _ _ Hk). change (cursor a1) with (cursor a).
        destruct (cursor a <? len files - 1) eqn:Hdn; eexists; split;
          try reflexivity; simpl; split; try reflexivity; lia. }
    destruct Hstep as (a2 & Hp & Hc2 & Hd2).
    unfold bind in Hout. rewrite Hp in Hout. subst out.
    destruct (IH a2 w1) as (Hne & Hc' & Hd' & Hfs'); auto.
    { rewrite Hd2. exact Hls. }
    repeat split; try lia; try congruence.
    rewrite Hfs'. reflexivity.
Qed.

Lemma moving_keeps_the_cursor_on_an_entry_witness :
  let a := App_init ["home"] in
  let w := mkWorld home_fs (24, 80) [] [] in
  let keys := [KEY_UP; KEY_DOWN; ord "j"; ord "j"; ord "j"; ord "k"] in
  fst (run keys (a, w)) <> Raise IndexError
  /\ 0 <= cursor (fst (snd (run keys (a, w)))) < len ["c"; "a"; "b"; "docs"]
  /\ current_dir (fst (snd (run keys (a, w)))) = current_dir a
  /\ fs (snd (snd (run keys (a, w)))) = fs w.
Proof.
  intros a w keys. apply moving_keeps_the_cursor_on_an_entry.
  - reflexivity.
  - unfold len. simpl. lia.
  - repeat constructor.
Defined.



(** X9. The enter key changes nothing and raises nothing unless
    [files[self.cursor]] is defined and names a directory: on a file, and
    on a cursor outside the list, the state is unchanged. *)
Theorem enter_needs_a_directory files key a w :
  py_in key enter_keys = true ->
  (forall item, py_index files (cursor a) = Ok item ->
                is_dir (fs w) (joinpath (current_dir a) item) = false) ->
  process_key_press files key (a, w) = (Ok tt, (a, w)).
Proof.
  intros Hk Hnd. rewrite (press_enter _ _ _ Hk), try_enter_directory_eq.
  destruct (py_index files (cursor a)) as [item|e] eqn:Hitem; [|reflexivity].
  now rewrite (Hnd item eq_refl).
Qed.

Lemma enter_needs_a_directory_witness :
  let w := mkWorld home_fs (24, 80) [] [] in
  process_key_press ["b"; "docs"; "a"; "c"] (ord "l")
                    (with_cursor 2 (App_init ["home"]), w)
  = (Ok tt, (with_cursor 2 (App_init ["home"]), w))
  /\ process_key_press [] KEY_RIGHT (App_init ["home"; "b"], w)
     = (Ok tt, (App_init ["home"; "b"], w)).
Proof.
  intros w. split.
  - apply enter_needs_a_directory; [reflexivity|].
    intros item [= <-]. reflexivity.
  - apply enter_needs_a_directory; [reflexivity|].
    intros item. discriminate.
Defined.

Lemma with_cursor_same a : with_cursor (cursor a) a = a.
Proof. destruct a; reflexivity. Qed.

(** X10. Moving down and then up leads back to the same state when the
    cursor is on an entry that is not the last; moving up and then down
    does when it is on an entry that is not the first. *)
Theorem down_up_round_trip files kd ku a w :
  py_in kd down_keys = true ->
  py_in ku up_keys = true ->
  (0 <= cursor a < len files - 1 ->
   process_keys files [kd; ku] (a, w) = (Ok tt, (a, w)))
  /\ (0 < cursor a < len files ->
      process_keys files [ku; kd] (a, w) = (Ok tt, (a, w))).
Proof.
  intros Hd Hu. split; intros Hc; cbn [process_keys]; unfold bind.
  - rewrite (press_down _ _ _ _ Hd).
    replace (cursor a <? len files - 1) with true by (symmetry; lia).
    rewrite (press_up _ _ _ _ Hu). cbn [cursor with_cursor].
    replace (cursor a + 1 >? 0) with true by (symmetry; lia).
    replace (cursor a + 1 - 1) with (cursor a) by lia.
    destruct a; reflexivity.
  - rewrite (press_up _ _ _ _ Hu).
    replace (cursor a >? 0) with true by (symmetry; lia).
    rewrite (press_down _ _ _ _ Hd). cbn [cursor with_cursor].
    replace (cursor a - 1 <? len files - 1) with true by (symmetry; lia).
    replace (cursor a - 1 + 1) with (cursor a) by lia.
    destruct a; reflexivity.
Qed.

Lemma down_up_round_trip_witness :
  let a := with_cursor 1 (App_init ["home"]) in
  let w := mkWorld home_fs (24, 80) [] [] in
  process_keys ["b"; "docs"; "a"; "c"] [ord "j"; KEY_UP] (a, w)
  = (Ok tt, (a, w)).
Proof.
  intros a w.
  apply (down_up_round_trip ["b"; "docs"; "a"; "c"] (ord "j") KEY_UP a w);
    try reflexivity.
  unfold len. simpl. lia.
Defined.

Lemma canon_app root p : forall acc q,
  canon root acc (p ++ q) =
  match canon root acc p with
  | Ok r => canon root r q
  | Raise e => Raise e
  end.
Proof.
  induction p as [|c p' IH]; intros acc q; simpl; [reflexivity|].
  destruct (lookup acc root) as [[t|ch]|]; try reflexivity.
  destruct (String.eqb c ".."); apply IH.
Qed.

(** The parent of a directory is a directory. *)
Lemma is_dir_parent root p :
  is_dir root p = true -> is_dir root (parent p) = true.
Proof.
  destruct p as [|c0 p0]; [auto|].
  destruct (exists_last (l := c0 :: p0)) as (q & c & Heq); [discriminate|].
  rewrite Heq. unfold parent. rewrite removelast_last.
  intros Hd. apply is_dir_inv in Hd as (cp & ch & Hs).
  apply os_stat_inv in Hs as [Hc _]. rewrite canon_app in Hc.
  destruct (canon root [] q) as [r|e] eqn:Hq; [|discriminate].
  simpl in Hc. unfold is_dir, os_stat. rewrite Hq.
  destruct (lookup r root) as [[t|ch']|]; try discriminate. reflexivity.
Qed.

Lemma lookup_app p : forall q root,
  lookup (p ++ q) root =
  match lookup p root with
  | Some n => lookup q n
  | None => None
  end.
Proof.
  induction p as [|c p' IH]; intros q root; simpl; [reflexivity|].
  destruct root as [t|ch]; [reflexivity|].
  destruct (find_child c ch); [apply IH | reflexivity].
Qed.

Lemma find_child_set_child_new nm v ch :
  find_child nm ch = None ->
  find_child nm (set_child nm (Some v) ch) = Some v.
Proof.
  induction ch as [|[k c] r IH]; simpl.
  - now rewrite String.eqb_refl.
  - destruct (String.eqb k nm) eqn:E; [discriminate|]. simpl.
    rewrite E. exact IH.
Qed.

Lemma find_child_In nm ch :
  In nm (map fst ch) <-> exists c, find_child nm ch = Some c.
Proof.
  induction ch as [|[k c] r IH]; simpl.
  - split; [contradiction | intros [c [=]]].
  - destruct (String.eqb_spec k nm) as [->|Hne].
    + split; eauto.
    + rewrite <- IH. split; [intros [H | H]; [contradiction | exact H] | auto].
Qed.

Lemma find_child_absent nm ch :
  ~ In nm (map fst ch) -> find_child nm ch = None.
Proof.
  intros H. destruct (find_child nm ch) eqn:E; [|reflexivity].
  exfalso. apply H. apply find_child_In. eauto.
Qed.

Lemma set_at_deeper k p' v entries :
  p' <> [] ->
  set_at (k :: p') v (Dir entries) =
  match find_child k entries with
  | Some sub => Dir (set_child k (Some (set_at p' v sub)) entries)
  | None => Dir entries
  end.
Proof. destruct p'; [contradiction | reflexivity]. Qed.

(** The entry set at the end of a resolved path lands in its directory. *)
Lemma lookup_set_at_child nm v ccur : forall root ch,
  lookup ccur root = Some (Dir ch) ->
  lookup ccur (set_at (ccur ++ [nm]) v root)
  = Some (Dir (set_child nm v ch)).
Proof.
  induction ccur as [|k r IH]; intros root ch Hl.
  - simpl in Hl. injection Hl as ->. reflexivity.
  - destruct root as [t|entries]; [discriminate|]. simpl in Hl.
    destruct (find_child k entries) as [sub|] eqn:Hk; [|discriminate].
    cbn [app]. rewrite set_at_deeper, Hk by (destruct r; discriminate).
    simpl. rewrite (find_child_set_child_eq _ _ _ _ Hk). now apply IH.
Qed.

(** Setting an entry where there is no directory leaves every directory
    a directory. *)
Lemma lookup_dir_after_set_at v cp : forall root,
  (forall ch, lookup cp root <> Some (Dir ch)) ->
  forall q ch, lookup q root = Some (Dir ch) ->
  exists ch', lookup q (set_at cp v root) = Some (Dir ch').
Proof.
  induction cp as [|k cp' IH]; intros root Hcp q ch Hq.
  - exists ch. exact Hq.
  - destruct root as [t|entries]; [exists ch; exact Hq|].
    destruct q as [|k2 q']; [destruct cp'; simpl; [eauto|];
                             destruct (find_child k entries); eauto|].
    simpl in Hq.
    destruct (find_child k2 entries) as [sub2|] eqn:Hk2; [|discriminate].
    destruct (String.eqb_spec k2 k) as [->|Hne].
    + assert (Hsub : forall ch0, lookup cp' sub2 <> Some (Dir ch0)).
      { intros ch0 H. apply (Hcp ch0). simpl. now rewrite Hk2. }
      destruct cp' as [|k' cp''].
      * exfalso. destruct sub2 as [t|ch2].
        -- apply lookup_file_inv in Hq as [_ Hq]. discriminate.
        -- apply (Hsub ch2). reflexivity.
      * cbn [set_at]. rewrite Hk2. simpl.
        rewrite (find_child_set_child_eq _ _ _ _ Hk2).
        apply (IH sub2 Hsub q' ch Hq).
    + assert (Hnew : (exists v', set_at (k :: cp') v (Dir entries)
                                 = Dir (set_child k v' entries))
                     \/ set_at (k :: cp') v (Dir entries) = Dir entries).
      { destruct cp' as [|k' cp'']; simpl; [eauto|].
        destruct (find_child k entries); eauto. }
      destruct Hnew as [[v' ->] | ->]; simpl.
      * rewrite (find_child_set_child_ne _ _ _ _ Hne), Hk2. eauto.
      * rewrite Hk2. eauto.
Qed.

Section DirectoriesKept.

Variables root root' : node.
Hypothesis kept : forall q ch,
  lookup q root = Some (Dir ch) -> exists ch', lookup q root' = Some (Dir ch').

Lemma canon_kept : forall p acc r,
  canon root acc p = Ok r -> canon root' acc p = Ok r.
Proof.
  induction p as [|c p' IH]; intros acc r Hc; simpl in *.
  - exact Hc.
  - destruct (lookup acc root) as [[t0|ch]|] eqn:Hacc; try discriminate.
    destruct (kept acc ch Hacc) as [ch' ->].
    destruct (String.eqb c ".."); now apply IH.
Qed.

Lemma is_dir_kept q : is_dir root q = true -> is_dir root' q = true.
Proof.
  intros Hq. apply is_dir_inv in Hq as (cq & chq & Hq).
  apply os_stat_inv in Hq as [Hcq Hlq].
  unfold is_dir, os_stat. rewrite (canon_kept _ _ _ Hcq).
  destruct (kept cq chq Hlq) as [ch' ->]. reflexivity.
Qed.

End DirectoriesKept.

Lemma os_mkdir_keeps_directories root p root' q :
  os_mkdir root p = Ok root' -> is_dir root q = true -> is_dir root' q = true.
Proof.
  unfold os_mkdir. destruct (canon root [] p) as [cp|e]; [|discriminate].
  destruct (lookup cp root) eqn:Hl; [discriminate|]. intros [= <-].
  apply is_dir_kept. apply lookup_dir_after_set_at. intros ch. congruence.
Qed.

(** What a listing says about the tree. *)
Lemma os_listdir_inv root cur names :
  os_listdir root cur = Ok names ->
  exists ccur ch,
    canon root [] cur = Ok ccur /\ lookup ccur root = Some (Dir ch)
    /\ names = map fst ch.
Proof.
  unfold os_listdir.
  destruct (os_stat root cur) as [[ccur [t|ch]]|e] eqn:Hs; try discriminate.
  intros [= <-]. apply os_stat_inv in Hs as [Hc Hl]. eauto.
Qed.

Lemma valid_name_not_dotdot nm :
  valid_name nm = true -> String.eqb nm ".." = false.
Proof.
  unfold valid_name. rewrite !andb_true_iff, !negb_true_iff. tauto.
Qed.

(** Resolving the child [nm] of a listed directory. *)
Lemma canon_child root cur ccur ch nm :
  canon root [] cur = Ok ccur -> lookup ccur root = Some (Dir ch) ->
  valid_name nm = true ->
  canon root [] (cur ++ [nm]) = Ok (ccur ++ [nm])
  /\ lookup (ccur ++ [nm]) root = find_child nm ch.
Proof.
  intros Hc Hl Hv. split.
  - rewrite canon_app, Hc. simpl. now rewrite Hl, (valid_name_not_dotdot _ Hv).
  - rewrite lookup_app, Hl. simpl. destruct (find_child nm ch); reflexivity.
Qed.

Lemma names_after_insert nm v ch :
  ~ In nm (map fst ch) ->
  map fst (set_child nm (Some v) ch) = map fst ch ++ [nm].
Proof.
  induction ch as [|[k c] r IH]; simpl; intros Hn; [reflexivity|].
  destruct (String.eqb_spec k nm) as [->|Hne]; [tauto|].
  simpl. f_equal. apply IH. tauto.
Qed.

Lemma names_after_remove item ch :
  NoDup (map fst ch) ->
  forall nm, In nm (map fst (set_child item None ch))
             <-> In nm (map fst ch) /\ nm <> item.
Proof.
  induction ch as [|[k c] r IH]; simpl; intros Hnd nm; [tauto|].
  inversion Hnd as [|? ? Hk Hr]; subst.
  destruct (String.eqb_spec k item) as [->|Hne].
  - split; [intros H; split; [auto | intros ->; contradiction]|].
    intros [[H | H] Hn]; [congruence | exact H].
  - simpl. rewrite (IH Hr nm). split.
    + intros [<- | [H Hn]]; auto.
    + intros [[H | H] Hn]; auto.
Qed.

(** The file system part of a listing and of a child, for a listed
    directory in [root'] whose entries are [ch']. *)
Lemma listing_of root' cur ccur ch' :
  canon root' [] cur = Ok ccur -> lookup ccur root' = Some (Dir ch') ->
  os_listdir root' cur = Ok (map fst ch').
Proof.
  intros Hc Hl. unfold os_listdir, os_stat. now rewrite Hc, Hl.
Qed.

Lemma child_is_dir_of root cur ccur ch nm :
  canon root [] cur = Ok ccur -> lookup ccur root = Some (Dir ch) ->
  valid_name nm = true ->
  child_is_dir root cur nm
  = match find_child nm ch with Some (Dir _) => true | _ => false end.
Proof.
  intros Hc Hl Hv. destruct (canon_child _ _ _ _ _ Hc Hl Hv) as [Hcn Hln].
  unfold child_is_dir, is_dir, os_stat. rewrite Hcn, Hln.
  destruct (find_child nm ch) as [[t|ch0]|]; reflexivity.
Qed.

(** X12. Deleting a selected regular file of the current directory (on a
    well-formed file system) removes exactly that entry: the next listing
    has the other names and not this one, and the other entries are
    directories or not as before. *)
Theorem delete_removes_the_file files item names a w :
  wf_node (fs w) = true ->
  os_listdir (fs w) (current_dir a) = Ok names ->
  py_index files (cursor a) = Ok item ->
  In item names ->
  child_is_dir (fs w) (current_dir a) item = false ->
  exists r names',
    process_key_press files (ord "x") (a, w) = (Ok tt, (a, with_fs r w))
    /\ os_listdir r (current_dir a) = Ok names'
    /\ (forall nm, In nm names' <-> In nm names /\ nm <> item)
    /\ (forall nm, In nm names' ->
          child_is_dir r (current_dir a) nm
          = child_is_dir (fs w) (current_dir a) nm).
Proof.
  intros Hwf Hls Hitem Hin Hfile.
  destruct (wf_listing _ _ _ Hwf Hls) as [Hvalid Hnd].
  rewrite Forall_forall in Hvalid. pose proof (Hvalid item Hin) as Hv.
  destruct (os_listdir_inv _ _ _ Hls) as (ccur & ch & Hc & Hl & ->).
  destruct (canon_child _ _ _ _ _ Hc Hl Hv) as [Hcn Hln].
  apply find_child_In in Hin as [c Hfind].
  rewrite (child_is_dir_of _ _ _ _ _ Hc Hl Hv), Hfind in Hfile.
  destruct c as [t|chd]; [clear Hfile | discriminate].
  rewrite Hfind in Hln.
  assert (Hrm : os_remove (fs w) (joinpath (current_dir a) item)
                = Ok (set_at (ccur ++ [item]) None (fs w))).
  { rewrite (joinpath_valid _ _ Hv). unfold os_remove, os_stat.
    now rewrite Hcn, Hln. }
  set (r := set_at (ccur ++ [item]) None (fs w)) in *.
  assert (Hc' : canon r [] (current_dir a) = Ok ccur)
    by (eapply canon_after_unlink; eauto).
  assert (Hl' : lookup ccur r = Some (Dir (set_child item None ch)))
    by (apply lookup_set_at_child; exact Hl).
  exists r, (map fst (set_child item None ch)).
  split; [now rewrite press_x, try_remove_file_eq, Hitem, Hrm|].
  split; [exact (listing_of _ _ _ _ Hc' Hl')|].
  split; [apply names_after_remove; exact Hnd|].
  intros nm Hnm. apply (names_after_remove _ _ Hnd) in Hnm as [Hnm Hne].
  pose proof (Hvalid nm Hnm) as Hvn.
  rewrite (child_is_dir_of _ _ _ _ _ Hc' Hl' Hvn),
          (child_is_dir_of _ _ _ _ _ Hc Hl Hvn).
  now rewrite (find_child_set_child_ne _ _ _ _ Hne).
Qed.

Lemma delete_removes_the_file_witness :
  let a := with_cursor 2 (App_init ["home"]) in
  let w := mkWorld home_fs (24, 80) [] [] in
  exists r names',
    process_key_press ["b"; "docs"; "a"; "c"] (ord "x") (a, w)
    = (Ok tt, (a, with_fs r w))
    /\ os_listdir r (current_dir a) = Ok names'
    /\ (forall nm, In nm names' <-> In nm ["c"; "a"; "b"; "docs"] /\ nm <> "a")
    /\ (forall nm, In nm names' ->
          child_is_dir r (current_dir a) nm
          = child_is_dir (fs w) (current_dir a) nm).
Proof.
  intros a w.
  apply (delete_removes_the_file ["b"; "docs"; "a"; "c"] "a"
                                 ["c"; "a"; "b"; "docs"] a w);
    try reflexivity.
  simpl. auto.
Defined.




Lemma is_prefix_siblings (p : Path) x y :
  x <> y -> is_prefix (p ++ [x]) (p ++ [y]) = false.
Proof.
  intros Hne. induction p as [|c p IH]; simpl.
  - destruct (String.eqb_spec x y); [contradiction | reflexivity].
  - now rewrite IH, andb_false_r.
Qed.

(** X14. When the prompt of the rename key returns a valid name that is
    not yet in the current directory, and a regular file of the current
    directory (on a well-formed file system) is selected, the key moves
    it: the key press returns, the next listing has the new name instead
    of the old one, the text read under the new name is the text that was
    under the old one, and every directory is still a directory. *)
Theorem rename_moves_the_file files item names new_name s1 a w :
  wf_node (fs w) = true ->
  os_listdir (fs w) (current_dir a) = Ok names ->
  py_index files (cursor a) = Ok item ->
  In item names ->
  child_is_dir (fs w) (current_dir a) item = false ->
  _ask_user_input "Enter new name: " (a, w) = (Ok new_name, s1) ->
  valid_name new_name = true ->
  ~ In new_name names ->
  exists r names',
    process_key_press files (ord "a") (a, w)
    = (Ok tt, (a, with_fs r (snd s1)))
    /\ os_listdir r (current_dir a) = Ok names'
    /\ (forall nm, In nm names'
                   <-> (In nm names /\ nm <> item) \/ nm = new_name)
    /\ read_text r (current_dir a ++ [new_name])
       = read_text (fs w) (current_dir a ++ [item])
    /\ (forall p, is_dir (fs w) p = true -> is_dir r p = true).
Proof.
  intros Hwf Hls Hitem Hin Hfile Hask Hvn Hfresh. rename new_name into nm.
  apply ask_user_input_inv in Hask as [Hdec ->]. cbn [snd].
  destruct (wf_listing _ _ _ Hwf Hls) as [Hvalid Hnd].
  rewrite Forall_forall in Hvalid. pose proof (Hvalid item Hin) as Hv.
  assert (Hne : item <> nm) by (intros ->; contradiction).
  destruct (os_listdir_inv _ _ _ Hls) as (ccur & ch & Hc & Hl & ->).
  destruct (canon_child _ _ _ _ _ Hc Hl Hv) as [Hcs Hlsrc].
  destruct (canon_child _ _ _ _ _ Hc Hl Hvn) as [Hcd Hld].
  rewrite (find_child_absent _ _ Hfresh) in Hld.
  apply find_child_In in Hin as [c Hfind].
  rewrite (child_is_dir_of _ _ _ _ _ Hc Hl Hv), Hfind in Hfile.
  destruct c as [t|chd]; [clear Hfile | discriminate].
  rewrite Hfind in Hlsrc.
  set (r1 := set_at (ccur ++ [item]) None (fs w)).
  set (r := set_at (ccur ++ [nm]) (Some (File t)) r1).
  assert (Hrn : os_rename (fs w) (joinpath (current_dir a) item)
                          (joinpath (current_dir a) nm) = Ok r).
  { rewrite !joinpath_valid by assumption. unfold os_rename, os_stat.
    rewrite Hcs, Hlsrc, Hcd. unfold path_eqb.
    rewrite (is_prefix_siblings _ _ _ Hne). cbn [andb]. now rewrite Hld. }
  assert (Hc1 : canon r1 [] (current_dir a) = Ok ccur)
    by (eapply canon_after_unlink; eauto).
  assert (Hl1 : lookup ccur r1 = Some (Dir (set_child item None ch)))
    by (apply lookup_set_at_child; exact Hl).
  assert (Habs : find_child nm (set_child item None ch) = None).
  { rewrite find_child_set_child_ne by congruence.
    now apply find_child_absent. }
  assert (Hd1 : lookup (ccur ++ [nm]) r1 = None).
  { rewrite lookup_app, Hl1. simpl. now rewrite Habs. }
  assert (Hkept1 : forall q ch0, lookup q (fs w) = Some (Dir ch0) ->
                                 exists ch', lookup q r1 = Some (Dir ch'))
    by (intros q ch0; now apply (lookup_dir_after_unlink _ _ t Hlsrc)).
  assert (Hkept2 : forall q ch0, lookup q r1 = Some (Dir ch0) ->
                                 exists ch', lookup q r = Some (Dir ch')).
  { apply lookup_dir_after_set_at. intros ch0. congruence. }
  assert (Hc2 : canon r [] (current_dir a) = Ok ccur)
    by (eapply canon_kept; eauto).
  assert (Hl2 : lookup ccur r
                = Some (Dir (set_child nm (Some (File t))
                                       (set_child item None ch))))
    by (apply lookup_set_at_child; exact Hl1).
  destruct (canon_child _ _ _ _ _ Hc2 Hl2 Hvn) as [Hcn2 Hln2].
  rewrite (find_child_set_child_new _ _ _ Habs) in Hln2.
  exists r. eexists.
  split; [rewrite press_a, try_rename_file_eq, Hdec; cbv zeta;
          now rewrite Hitem, Hrn|].
  split; [exact (listing_of _ _ _ _ Hc2 Hl2)|].
  split; [|split].
  - intros x. rewrite names_after_insert.
    + rewrite in_app_iff, (names_after_remove _ _ Hnd). simpl.
      intuition congruence.
    + rewrite (names_after_remove _ _ Hnd). tauto.
  - unfold read_text, os_stat. now rewrite Hcn2, Hln2, Hcs, Hlsrc.
  - intros p Hp. eapply is_dir_kept; [exact Hkept2|].
    eapply is_dir_kept; [exact Hkept1 | exact Hp].
Qed.

Lemma rename_moves_the_file_witness :
  let a := with_cursor 2 (App_init ["home"]) in
  let w := mkWorld home_fs (24, 80) [] ["z"] in
  let w1 := after_prompt "Enter new name: " a w in
  exists r names',
    process_key_press ["b"; "docs"; "a"; "c"] (ord "a") (a, w)
    = (Ok tt, (a, with_fs r w1))
    /\ os_listdir r (current_dir a) = Ok names'
    /\ (forall nm, In nm names'
                   <-> (In nm ["c"; "a"; "b"; "docs"] /\ nm <> "a") \/ nm = "z")
    /\ read_text r (current_dir a ++ ["z"])
       = read_text (fs w) (current_dir a ++ ["a"])
    /\ (forall p, is_dir (fs w) p = true -> is_dir r p = true).
Proof.
  intros a w w1.
  apply (rename_moves_the_file ["b"; "docs"; "a"; "c"] "a"
                               ["c"; "a"; "b"; "docs"] "z" (a, w1) a w);
    try reflexivity.
  - simpl. auto.
  - simpl. intuition discriminate.
Defined.




Lemma filter_perm {A : Type} (f : A -> bool) l l' :
  Permutation l l' -> Permutation (filter f l) (filter f l').
Proof.
  induction 1 as [|x l l' HP IH|x y l|l l' l'' HP1 IH1 HP2 IH2]; simpl.
  - constructor.
  - destruct (f x); [now constructor | exact IH].
  - destruct (f x), (f y); try reflexivity. apply perm_swap.
  - now transitivity (filter f l').
Qed.

Lemma py_sort_perm_eq l l' : Permutation l l' -> py_sort l = py_sort l'.
Proof.
  intros HP. apply py_sort_unique; [|apply py_sort_sorted].
  rewrite HP. symmetry. apply py_sort_perm.
Qed.

(** X16. The entries [get_sorted_files] returns do not depend on the
    order in which the file system enumerates the children: two listings
    with the same names and the same directories among them give the same
    list. *)
Theorem listing_ignores_enumeration_order a w a' w' names names' :
  os_listdir (fs w) (current_dir a) = Ok names ->
  os_listdir (fs w') (current_dir a') = Ok names' ->
  Permutation names names' ->
  (forall nm, In nm names ->
     child_is_dir (fs w) (current_dir a) nm
     = child_is_dir (fs w') (current_dir a') nm) ->
  fst (get_sorted_files (a, w)) = fst (get_sorted_files (a', w')).
Proof.
  intros Hls Hls' HP Hkind.
  rewrite (get_sorted_files_eq _ _ _ Hls), (get_sorted_files_eq _ _ _ Hls').
  cbn [fst]. f_equal.
  assert (Hd : filter (child_is_dir (fs w) (current_dir a)) names
               = filter (child_is_dir (fs w') (current_dir a')) names)
    by (apply filter_ext_in; exact Hkind).
  assert (Hf : filter (fun nm => negb (child_is_dir (fs w) (current_dir a) nm))
                      names
               = filter (fun nm => negb (child_is_dir (fs w') (current_dir a')
                                                      nm)) names)
    by (apply filter_ext_in; intros nm Hnm; now rewrite (Hkind nm Hnm)).
  rewrite Hd, Hf. f_equal; apply py_sort_perm_eq, filter_perm, HP.
Qed.

Lemma listing_ignores_enumeration_order_witness :
  let a := App_init ["home"] in
  fst (get_sorted_files (a, mkWorld home_fs (24, 80) [] []))
  = fst (get_sorted_files (a, mkWorld home_fs_reordered (24, 80) [] [])).
Proof.
  intros a.
  apply (listing_ignores_enumeration_order _ _ _ _
           ["c"; "a"; "b"; "docs"] ["docs"; "b"; "a"; "c"]);
    try reflexivity.
  - apply Permutation_rev with (l := ["c"; "a"; "b"; "docs"]).
  - intros nm [<- | [<- | [<- | [<- | []]]]]; reflexivity.
Defined.




(** X18. The key [q] ends [main]: the keys after it are not read (the
    outcome is that of [q] alone) and [main] does not go on to wait for a
    key; whether the one drawing of the screen returns or raises, the
    cursor is 0, the current directory is the working directory, and the
    file system and the pending input are unchanged. *)
Theorem quit_ends_main cwd later w :
  main cwd (ord "q" :: later) w = main cwd [ord "q"] w
  /\ fst (main cwd (ord "q" :: later) w) <> Ok AwaitingKey
  /\ cursor (fst (snd (main cwd (ord "q" :: later) w))) = 0
  /\ current_dir (fst (snd (main cwd (ord "q" :: later) w))) = cwd
  /\ fs (snd (snd (main cwd (ord "q" :: later) w))) = fs w
  /\ typed (snd (snd (main cwd (ord "q" :: later) w))) = typed w.
Proof.
  unfold main.
  set (w0 := add_calls [InitPair 4 COLOR_BLACK COLOR_BLUE;
                        InitPair 3 COLOR_BLUE COLOR_BLACK;
                        InitPair 2 COLOR_BLACK COLOR_WHITE;
                        InitPair 1 COLOR_WHITE COLOR_BLACK;
                        StartColor; CursSet 0] w).
  assert (Hinit : _initialize_screen (App_init cwd, w)
                  = (Ok tt, (App_init cwd, w0))) by reflexivity.
  assert (Hq : forall keys,
             (_initialize_screen ;; run (ord "q" :: keys)) (App_init cwd, w)
             = match render (App_init cwd, w0) with
               | (Ok _, s) => (Ok Terminated, s)
               | (Raise e, s) => (Raise e, s)
               end).
  { intros keys. unfold bind at 1. rewrite Hinit. cbn [run]. unfold bind.
    rewrite Z.eqb_refl.
    destruct (render (App_init cwd, w0)) as [[files|e] s]; reflexivity. }
  rewrite !Hq. destruct (render_step (App_init cwd) w0) as [added Hr].
  rewrite Hr.
  destruct (render_result (App_init cwd) w0) as [files|e];
    repeat split; discriminate.
Qed.






(** X11. If the current directory was a directory before a key press
    other than rename, it is one after it, whether the key press returns
    or raises: going to the parent, entering, moving, deleting and
    creating a directory all keep it so.  Unless the key is the
    create-directory key, which asks for a name first, the key press
    returns. *)
Theorem current_dir_stays_a_directory files key a w :
  is_dir (fs w) (current_dir a) = true ->
  (key =? ord "a") = false ->
  is_dir (fs (snd (snd (process_key_press files key (a, w)))))
         (current_dir (fst (snd (process_key_press files key (a, w))))) = true
  /\ ((key =? KEY_F7) = false ->
      fst (process_key_press files key (a, w)) = Ok tt).
Proof.
  intros Hd Hk.
  destruct (key =? ord "x") eqn:Hx.
  { apply Z.eqb_eq in Hx. subst key.
    destruct (delete_keeps_directories files a w) as (w' & Hrun & Hkeep).
    rewrite Hrun. split; [now apply Hkeep | reflexivity]. }
  destruct (key =? KEY_F7) eqn:Hf.
  { apply Z.eqb_eq in Hf. subst key. split; [|discriminate].
    rewrite press_F7, try_create_directory_eq.
    destruct (utf8_decode (typed_name w)) as [new_dir|e]; [|exact Hd].
    cbv zeta. cbn [fst snd].
    destruct (os_mkdir (fs w) _) as [r|e] eqn:Hmk; [|exact Hd].
    simpl. eapply os_mkdir_keeps_directories; eauto. }
  assert (Hm : py_in key mutation_keys = false).
  { unfold py_in, mutation_keys. cbn [existsb]. now rewrite Hx, Hk, Hf. }
  destruct (py_in key parent_keys) eqn:Hp.
  { rewrite (press_parent _ _ _ _ Hp). split; [|reflexivity].
    simpl. now apply is_dir_parent. }
  destruct (py_in key enter_keys) eqn:He.
  { rewrite (press_enter _ _ _ He), try_enter_directory_eq.
    split; [|reflexivity]. cbn [fst snd].
    destruct (py_index files (cursor a)) as [item|e]; [|exact Hd].
    destruct (is_dir (fs w) (joinpath (current_dir a) item)) eqn:Hi;
      [exact Hi | exact Hd]. }
  destruct (py_in key up_keys) eqn:Hu.
  { rewrite (press_up _ _ _ _ Hu). split; [|reflexivity]. cbn [fst snd].
    destruct (cursor a >? 0); exact Hd. }
  destruct (py_in key down_keys) eqn:Hdn.
  { rewrite (press_down _ _ _ _ Hdn). split; [|reflexivity]. cbn [fst snd].
    destruct (cursor a <? len files - 1); exact Hd. }
  rewrite press_unhandled; [split; [exact Hd | reflexivity]|].
  now rewrite !py_in_app, Hu, Hdn, Hp, He, Hm.
Qed.

Lemma current_dir_stays_a_directory_witness :
  let a := App_init ["home"; "docs"] in
  let w := mkWorld home_fs (24, 80) [] [accented_name] in
  is_dir (fs (snd (snd (process_key_press ["in"] KEY_F7 (a, w)))))
         (current_dir (fst (snd (process_key_press ["in"] KEY_F7 (a, w)))))
  = true.
Proof.
  intros a w.
  apply (current_dir_stays_a_directory ["in"] KEY_F7 a w); reflexivity.
Defined.
